(** * TDMS_to_csv: the conversion / merge / transform pipeline

    A shallow embedding of [convert_to_csv.py].  The program is a script
    around three external collaborators (the TDMS decoder, pandas and the
    plotting stack); the embedding keeps the script's own control flow,
    string manipulation and error handling, and represents

    - the file system as a finite map from absolute paths to nodes,
    - standard output as the list of printed lines,
    - Python exceptions as the [Raise] outcome of a state-and-error monad,
    - the thread pool by the order in which its tasks complete. *)

From Stdlib Require Import ZArith Ascii.
From stdpp Require Import gmap strings list pretty sorting.

Local Open Scope Z_scope.

(** ** Python string and path primitives *)

Module PyStr.

(** [str.lower], on the ASCII range. *)
Definition lower_char (c : ascii) : ascii :=
  let n := N_of_ascii c in
  if ((65 <=? n) && (n <=? 90))%N then ascii_of_N (n + 32) else c.

Fixpoint lower (s : string) : string :=
  match s with
  | EmptyString => EmptyString
  | String c s' => String (lower_char c) (lower s')
  end.

Definition startswith (s pre : string) : bool := String.prefix pre s.

(** [s.endswith(suf)]: the last [len(suf)] characters of [s] are [suf]. *)
Definition endswith (s suf : string) : bool :=
  let n := String.length s in
  let m := String.length suf in
  (m <=? n)%nat && String.eqb (String.substring (n - m) m s) suf.

(** [s.replace(old, new)] for a non-empty [old]: every non-overlapping
    occurrence of [old], scanning from the left, becomes [new].  [skip]
    counts the characters of a matched occurrence still to be dropped. *)
Fixpoint replace_go (old new : string) (skip : nat) (s : string) : string :=
  match s with
  | EmptyString => EmptyString
  | String c s' =>
      match skip with
      | S k => replace_go old new k s'
      | O =>
          if String.prefix old s
          then new +:+ replace_go old new (String.length old - 1) s'
          else String c (replace_go old new 0 s')
      end
  end.

(** With an empty [old] Python puts [new] before every character and at
    the end. *)
Fixpoint interleave (new s : string) : string :=
  match s with
  | EmptyString => new
  | String c s' => new +:+ String c (interleave new s')
  end.

Definition replace (old new s : string) : string :=
  match old with
  | EmptyString => interleave new s
  | _ => replace_go old new 0 s
  end.

(** [os.path.basename] (posixpath): what follows the last slash. *)
Fixpoint basename_go (acc s : string) : string :=
  match s with
  | EmptyString => String.rev acc
  | String c s' =>
      if Ascii.eqb c "/" then basename_go EmptyString s'
      else basename_go (String c acc) s'
  end.

Definition basename (p : string) : string := basename_go EmptyString p.

(** [os.path.join a b] (posixpath, two components). *)
Definition path_join (a b : string) : string :=
  if startswith b "/" then b
  else if String.eqb a EmptyString || endswith a "/" then a +:+ b
  else a +:+ "/" +:+ b.

(** [s.split('/')] *)
Fixpoint split_slash_go (acc s : string) : list string :=
  match s with
  | EmptyString => [String.rev acc]
  | String c s' =>
      if Ascii.eqb c "/" then String.rev acc :: split_slash_go EmptyString s'
      else split_slash_go (String c acc) s'
  end.

Definition split_slash (s : string) : list string :=
  split_slash_go EmptyString s.

(** ['/'.join(comps)] *)
Fixpoint join_slash (comps : list string) : string :=
  match comps with
  | [] => EmptyString
  | [c] => c
  | c :: cs => c +:+ "/" +:+ join_slash cs
  end.

(** One round of the loop of [os.path.normpath]; [new_comps] is kept with
    its last component first. *)
Definition normpath_comp (initial_slashes : nat) (new_comps : list string)
    (comp : string) : list string :=
  if String.eqb comp EmptyString || String.eqb comp "." then new_comps
  else if negb (String.eqb comp "..")
          || (Nat.eqb initial_slashes 0 && bool_decide (new_comps = []))
          || bool_decide (head new_comps = Some "..")
       then comp :: new_comps
       else tail new_comps.

(** [os.path.normpath] (posixpath) *)
Definition normpath (path : string) : string :=
  if String.eqb path EmptyString then "."
  else
    let initial_slashes :=
      if startswith path "/" then
        if startswith path "//" && negb (startswith path "///") then 2%nat
        else 1%nat
      else 0%nat in
    let comps := reverse (foldl (normpath_comp initial_slashes) [] (split_slash path)) in
    let joined :=
      match initial_slashes with
      | 0%nat => join_slash comps
      | 1%nat => "/" +:+ join_slash comps
      | _ => "//" +:+ join_slash comps
      end in
    if String.eqb joined EmptyString then "." else joined.

(** [os.path.abspath], given the current directory. *)
Definition abspath (cwd p : string) : string :=
  normpath (if startswith p "/" then p else path_join cwd p).

(** From the first slash on. *)
Fixpoint from_slash (s : string) : string :=
  match s with
  | EmptyString => EmptyString
  | String c s' => if Ascii.eqb c "/" then s else from_slash s'
  end.

Fixpoint all_slashes (s : string) : bool :=
  match s with
  | EmptyString => true
  | String c s' => Ascii.eqb c "/" && all_slashes s'
  end.

Fixpoint lstrip_char (x : ascii) (s : string) : string :=
  match s with
  | EmptyString => EmptyString
  | String c s' => if Ascii.eqb c x then lstrip_char x s' else s
  end.

(** [s.rstrip(x)] for a single character. *)
Definition rstrip_char (x : ascii) (s : string) : string :=
  String.rev (lstrip_char x (String.rev s)).

(** [os.path.dirname] (posixpath): up to the last slash, without trailing
    slashes unless it is made of slashes only. *)
Definition dirname (p : string) : string :=
  let head := String.rev (from_slash (String.rev p)) in
  if all_slashes head then head else rstrip_char "/" head.

(** Up to the first dot, reversed: the extension of a reversed name. *)
Fixpoint upto_dot (acc s : string) : option string :=
  match s with
  | EmptyString => None
  | String c s' =>
      if Ascii.eqb c "." then Some acc else upto_dot (String c acc) s'
  end.

(** [os.path.splitext(p)[1][1:]]: what follows the last dot of the base
    name, leading dots of the name apart. *)
Definition extension (p : string) : string :=
  let name := lstrip_char "." (basename p) in
  match upto_dot EmptyString (String.rev name) with
  | Some ext => ext
  | None => EmptyString
  end.

(** The directories above a normalised path, nearest first, the root
    apart: what [os.path.split] gives when applied again and again. *)
Definition heads (p : string) : list string :=
  let comps := filter (λ c : string, c ≠ EmptyString) (split_slash p) in
  let root := if startswith p "/" then "/" else EmptyString in
  (λ n, root +:+ join_slash (take n comps))
    <$> reverse (seq 1 (length comps - 1)).

(** Truth value of a string in a condition: non-empty. *)
Definition truthy (s : string) : bool := negb (String.eqb s EmptyString).

End PyStr.

Import PyStr.

(** [sanitize_filename]: remove spaces from the filename. *)
Definition sanitize_filename (filename : string) : string :=
  replace " " EmptyString filename.

(** ** Tables and data frames *)

(** A sample as a table holds it: missing ([NaN]), an integer ([Val], a
    64-bit integer in text or in a capture) or a binary floating-point
    number ([Flt m e] stands for m * 2^e). *)
Inductive cell := NaN | Val (v : Z) | Flt (m e : Z).

(** What a file holds: a header line and the lines below it, each line the
    list of its fields; an empty list is a blank line. *)
Record table := { header : list string; body : list (list cell) }.

(** A row label of a frame: a position of the default index, or the leading
    fields a line had beyond the header. *)
Inductive label := Pos (i : nat) | Key (fields : list cell).

(** A pandas [DataFrame]: column labels and rows, each row under its index
    label. *)
Record DataFrame := { columns : list string; rows : list (label * list cell) }.

Definition df_index (df : DataFrame) : list label := fst <$> rows df.

(** [len(df)] *)
Definition df_len (df : DataFrame) : nat := length (rows df).

(** [df.empty]: some axis has length zero. *)
Definition df_empty (df : DataFrame) : bool :=
  match columns df, rows df with
  | [], _ | _, [] => true
  | _, _ => false
  end.

(** The 64-bit float nearest to an integer (ties to even): integers of more
    than 53 bits lose their low bits. *)
Definition float_of_int (z : Z) : cell :=
  let a := Z.abs z in
  let n := Z.log2 a + 1 in
  if n <=? 53 then Flt z 0
  else
    let s := n - 53 in
    let q := Z.shiftr a s in
    let r := Z.land a (Z.ones s) in
    let half := Z.shiftl 1 (s - 1) in
    let q' := if (half <? r) || ((r =? half) && Z.odd q) then q + 1 else q in
    Flt (Z.sgn z * q') s.

Definition to_float (c : cell) : cell :=
  match c with Val v => float_of_int v | _ => c end.

Definition is_int (c : cell) : bool :=
  match c with Val _ => true | _ => false end.

(** Column [j] keeps the integer type: every row has an integer there. *)
Definition int_column (rows : list (list cell)) (j : nat) : bool :=
  forallb (λ r, match r !! j with Some c => is_int c | None => false end) rows.

(** The type a column takes: integers stay integers only in a column of
    integers; in any other column they become floats. *)
Definition upcast_columns (rows : list (list cell)) : list (list cell) :=
  (λ r, imap (λ j c, if int_column rows j then c else to_float c) r) <$> rows.

(** A line with too few fields is completed with missing cells. *)
Definition pad_to (n : nat) (r : list cell) : list cell :=
  r ++ replicate (n - length r) NaN.

(** [df.columns = names] *)
Definition set_columns (df : DataFrame) (names : list string) : DataFrame :=
  {| columns := names; rows := rows df |}.

(** Column labels of a concatenation: the union, in order of first
    appearance. *)
Definition union_columns (acc cols : list string) : list string :=
  acc ++ filter (λ c, c ∉ acc) cols.

(** One row re-expressed under the labels [target]: a label the row's frame
    does not have yields a missing cell. *)
Definition reindex (cols : list string) (r : list cell) (target : list string)
  : list cell :=
  (λ c, match list_find (λ c', c' = c) cols with
        | Some (j, _) => default NaN (r !! j)
        | None => NaN
        end) <$> target.

(** [pd.concat(dfs, ignore_index=...)] along the rows, outer join on the
    columns; each column of the result takes one type. *)
Definition pd_concat (dfs : list DataFrame) (ignore_index : bool) : DataFrame :=
  let cols := foldl union_columns [] (columns <$> dfs) in
  let stacked :=
    dfs ≫= (λ df, (λ r, (r.1, reindex (columns df) r.2 cols)) <$> rows df) in
  let labels :=
    if ignore_index then Pos <$> seq 0 (length stacked) else fst <$> stacked in
  {| columns := cols;
     rows := zip labels (upcast_columns (snd <$> stacked)) |}.

(** ** The world the script runs in *)

Inductive routine := MelSpectrogram | STFT | CWT | WignerVille | STransform.

Definition image := list (list Z).

Inductive content :=
| Tdms (t : table)      (* a capture the decoder accepts, with what it yields *)
| Csv (t : table)       (* delimited text *)
| Blank                 (* zero bytes *)
| Junk                  (* bytes neither reader accepts *)
| Png (r : routine) (i : image).

Inductive node := File (c : content) (mtime : Z) | Dir (mtime : Z).

Inductive exn :=
| EmptyDataError
| ParserError (expected line saw : nat)
| UnicodeDecodeError (path : string)
| DecodeError (path : string)
| FileNotFoundError (path : string)
| IsADirectoryError (path : string)
| NotADirectoryError (path : string)
| FileExistsError (path : string)
| OSError (msg : string)
| ValueError (msg : string)
| KeyError (key : string)
| NumericError (r : routine).

(** [str(e)] *)
Definition exn_message (e : exn) : string :=
  match e with
  | EmptyDataError => "No columns to parse from file"
  | ParserError expected line saw =>
      "Error tokenizing data. C error: Expected " +:+ pretty expected
      +:+ " fields in line " +:+ pretty line +:+ ", saw " +:+ pretty saw
      +:+ String "010" EmptyString
  | UnicodeDecodeError p => "'utf-8' codec can't decode bytes of " +:+ p
  | DecodeError p => "Not a TDMS file: " +:+ p
  | FileNotFoundError p => "[Errno 2] No such file or directory: '" +:+ p +:+ "'"
  | IsADirectoryError p => "[Errno 21] Is a directory: '" +:+ p +:+ "'"
  | NotADirectoryError p => "[Errno 20] Not a directory: '" +:+ p +:+ "'"
  | FileExistsError p => "[Errno 17] File exists: '" +:+ p +:+ "'"
  | OSError msg => msg
  | ValueError msg => msg
  | KeyError k => "'" +:+ k +:+ "'"
  | NumericError _ => "input too short"
  end.

Record World := {
  fs : gmap string node;       (* absolute path -> node *)
  stdout : list string;        (* printed lines, oldest first *)
  ticks : nat                  (* number of files written so far *)
}.

Inductive result (A : Type) := Ok (a : A) | Raise (e : exn).
Arguments Ok {A} a.
Arguments Raise {A} e.

(** Computations that read and change the world and may raise.  A raised
    exception keeps the effects that happened before it. *)
Definition M (A : Type) : Type := World → result A * World.

Global Instance M_ret : MRet M := λ A a w, (Ok a, w).
Global Instance M_bind : MBind M := λ A B f m w,
  match m w with
  | (Ok a, w') => f a w'
  | (Raise e, w') => (Raise e, w')
  end.

Definition raise {A} (e : exn) : M A := λ w, (Raise e, w).

(** [try: m  except Exception as e: h e] *)
Definition try_except {A} (m : M A) (h : exn → M A) : M A := λ w,
  match m w with
  | (Ok a, w') => (Ok a, w')
  | (Raise e, w') => h e w'
  end.

(** [for x in l: s = body x s] *)
Fixpoint for_in {A S} (l : list A) (body : A → S → M S) (s : S) : M S :=
  match l with
  | [] => mret s
  | x :: l' => s' ← body x s; for_in l' body s'
  end.

Definition print (line : string) : M unit := λ w,
  (Ok (), {| fs := fs w; stdout := stdout w ++ [line]; ticks := ticks w |}).

(** ** The script *)

Section Pipeline.

(** The environment the script cannot control: the time stamp the file
    system gives to the n-th write, the numeric and plotting collaborators
    (an image, or a failure such as a channel too short for the window),
    and the order in which the thread pool's tasks complete. *)
Variable clock : nat → Z.
Variable spectral : routine → list cell → result image.
Variable completion_order : list string → list string.

(** Creating or replacing the file at [path], stamped with the time of the
    write. *)
Definition store (path : string) (c : content) : M unit := λ w,
  (Ok (), {| fs := <[path := File c (clock (ticks w))]> (fs w);
             stdout := stdout w;
             ticks := S (ticks w) |}).

(** The directory a path lies in; a bare name lies in the current
    directory. *)
Definition parent (path : string) : string :=
  if String.eqb (dirname path) EmptyString then "." else dirname path.

(** [open(path, 'w')]: the directory must exist and [path] must not be a
    directory. *)
Definition write_file (path : string) (c : content) : M unit := λ w,
  match fs w !! parent path with
  | Some (Dir _) =>
      match fs w !! path with
      | Some (Dir _) => (Raise (IsADirectoryError path), w)
      | _ => store path c w
      end
  | Some (File _ _) => (Raise (NotADirectoryError path), w)
  | None => (Raise (FileNotFoundError path), w)
  end.

(** The lines of a table that are not blank, each with its line number in
    the file (the header is line 1). *)
Definition numbered_lines (t : table) : list (nat * list cell) :=
  filter (λ l : nat * list cell, l.2 ≠ []) (imap (λ i r, (i + 2, r)) (body t))%nat.

(** What [pd.read_csv] makes of the text of a table.  Blank lines are
    skipped.  The fields the first line has beyond the header are row labels,
    on every line.  A later line with more fields than the first does not
    parse; one with fewer is completed with missing cells. *)
Definition read_table (t : table) : result DataFrame :=
  let k := length (header t) in
  match header t with
  | [] => Raise EmptyDataError
  | _ =>
      let lines := numbered_lines t in
      let d := match lines with l :: _ => length l.2 - k | [] => 0 end in
      match list_find (λ l : nat * list cell, k + d < length l.2) lines with
      | Some (_, l) => Raise (ParserError (k + d) l.1 (length l.2))
      | None =>
          let padded := (λ l : nat * list cell, pad_to (k + d) l.2) <$> lines in
          let labels :=
            match d with
            | 0 => Pos <$> seq 0 (length lines)
            | _ => (λ r, Key (take d r)) <$> padded
            end in
          Ok {| columns := header t;
                rows := zip labels (upcast_columns (drop d <$> padded)) |}
      end
  end%nat.

(** What [pd.read_csv] makes of the node found at [file]. *)
Definition parse_csv (file : string) (n : option node) : result DataFrame :=
  match n with
  | Some (File (Csv t) _) => read_table t
  | Some (File Blank _) => Raise EmptyDataError
  | Some (File _ _) => Raise (UnicodeDecodeError file)
  | Some (Dir _) => Raise (IsADirectoryError file)
  | None => Raise (FileNotFoundError file)
  end.

(** [pd.read_csv(file)] *)
Definition read_csv (file : string) : M DataFrame := λ w,
  (parse_csv file (fs w !! file), w).

(** The frame of a capture: one column per channel under the default index;
    a channel shorter than the longest ends in missing cells. *)
Definition frame_of (t : table) : DataFrame :=
  {| columns := header t;
     rows := zip (Pos <$> seq 0 (length (body t)))
               (upcast_columns (resize (length (header t)) NaN <$> body t)) |}.

(** What the decoder makes of the node found at [path]; a file of zero
    bytes is a capture without channels. *)
Definition decode_tdms (path : string) (n : option node) : result DataFrame :=
  match n with
  | Some (File (Tdms t) _) => Ok (frame_of t)
  | Some (File Blank _) => Ok {| columns := []; rows := [] |}
  | Some (File _ _) => Raise (DecodeError path)
  | Some (Dir _) => Raise (IsADirectoryError path)
  | None => Raise (FileNotFoundError path)
  end.

(** [TdmsFile.read(path).as_dataframe()] *)
Definition tdms_read_as_dataframe (path : string) : M DataFrame := λ w,
  (decode_tdms path (fs w !! path), w).

(** The text [to_csv] writes for a frame with [index=False]: the header and
    the cells, no index column. *)
Definition csv_of (df : DataFrame) : content :=
  Csv {| header := columns df; body := snd <$> rows df |}.

(** [df.to_csv(path, index=False)]: pandas refuses a path whose directory
    does not exist, then opens the file. *)
Definition to_csv (df : DataFrame) (path : string) : M unit := λ w,
  match fs w !! parent path with
  | Some (Dir _) => write_file path (csv_of df) w
  | _ =>
      (Raise (OSError ("Cannot save file into a non-existent directory: '"
                       +:+ parent path +:+ "'")), w)
  end.

(** The formats [savefig] can write. *)
Definition image_formats : list string :=
  ["eps"; "jpeg"; "jpg"; "pdf"; "pgf"; "png"; "ps"; "raw"; "rgba"; "svg";
   "svgz"; "tif"; "tiff"; "webp"].

(** The file [savefig] writes for [fname]: the format is the extension,
    [png] being added to a name without one; an unknown format is refused. *)
Definition savefig_target (fname : string) : result string :=
  let format := extension fname in
  if String.eqb format EmptyString then Ok (rstrip_char "." fname +:+ ".png")
  else if bool_decide (lower format ∈ image_formats) then Ok fname
  else Raise (ValueError ("Format '" +:+ lower format +:+ "' is not supported")).

(** [plt.savefig(fname)] *)
Definition savefig (fname : string) (r : routine) (img : image) : M unit :=
  match savefig_target fname with
  | Ok target => write_file target (Png r img)
  | Raise e => raise e
  end.

(** [df[channel].values] *)
Definition column_values (df : DataFrame) (channel : string) : M (list cell) :=
  match list_find (λ c, c = channel) (columns df) with
  | Some (j, _) => mret ((λ r, default NaN (r.2 !! j)) <$> rows df)
  | None => raise (KeyError channel)
  end.

(** [os.path.getmtime(path)] *)
Definition getmtime (path : string) : M Z := λ w,
  match fs w !! path with
  | Some (File _ t) | Some (Dir t) => (Ok t, w)
  | None => (Raise (FileNotFoundError path), w)
  end.

Definition convert_tdms_to_csv (tdms_path output_folder : string) : M string :=
  let base_filename := sanitize_filename (basename tdms_path) in
  let csv_filename := replace ".tdms" ".csv" base_filename in
  let csv_path := path_join output_folder csv_filename in
  df ← tdms_read_as_dataframe tdms_path;
  to_csv df csv_path;;
  print ("Converted " +:+ tdms_path +:+ " to " +:+ csv_path);;
  mret csv_path.

(** [['CH' + str(i) for i in range(column_count)]] *)
Definition ch_name (i : nat) : string := "CH" +:+ pretty i.

Definition standardized_columns (column_count : nat) : list string :=
  ch_name <$> seq 0 column_count.

(** The body of the reading loop of [merge_csv_files], for one file. *)
Definition merge_read (file : string) (dataframes : list DataFrame)
  : M (list DataFrame) :=
  try_except
    (df ← read_csv file;
     if df_empty df then
       print ("Skipping empty file: " +:+ file);;
       mret dataframes
     else
       let column_count := length (columns df) in
       let df := set_columns df (standardized_columns column_count) in
       print ("Processed file: " +:+ file +:+ " | Columns = "
              +:+ pretty (length (columns df)) +:+ ", Rows = "
              +:+ pretty (df_len df));;
       mret (dataframes ++ [df]))
    (λ e, match e with
          | EmptyDataError =>
              print ("No data in " +:+ file +:+ ", skipping.");;
              mret dataframes
          | _ =>
              print ("Error reading " +:+ file +:+ ": " +:+ exn_message e);;
              mret dataframes
          end).

(** The frame [merge_csv_files] builds: the reading loop, then the
    concatenation of the frames kept, if any. *)
Definition merged_dataframe (files : list string) : M (option DataFrame) :=
  dataframes ← for_in files merge_read [];
  match dataframes with
  | _ :: _ => mret (Some (pd_concat dataframes true))
  | [] => mret None
  end.

Definition merge_csv_files (files : list string) (output_folder timestamp : string)
  : M (option string) :=
  merged ← merged_dataframe files;
  match merged with
  | Some merged_df =>
      print ("After Processed file: " +:+ default EmptyString (last files)
             +:+ " | Columns = " +:+ pretty (length (columns merged_df))
             +:+ ", Rows = " +:+ pretty (df_len merged_df));;
      let merged_filename :=
        path_join output_folder ("merge_csv_" +:+ timestamp +:+ ".csv") in
      to_csv merged_df merged_filename;;
      print ("Merged CSV files into " +:+ merged_filename);;
      mret (Some merged_filename)
  | None =>
      print "No valid CSV files to merge.";;
      mret None
  end.

(** What the five transform routines share: read the table, take the
    channel, compute and render, save the image next to the table. *)
Definition render (r : routine) (suffix csv_file channel : string) : M unit :=
  df ← read_csv csv_file;
  data ← column_values df channel;
  img ← (λ w, (spectral r data, w));
  savefig (replace ".csv" ("_" +:+ channel +:+ suffix) csv_file) r img.

Definition stft_transform (csv_file channel : string) : M unit :=
  render STFT "_stft.png" csv_file channel;;
  print ("STFT transformation completed for " +:+ channel +:+ ". Image saved.").

Definition cwt_transform (csv_file channel : string) : M unit :=
  render CWT "_cwt.png" csv_file channel;;
  print ("CWT transformation completed for " +:+ channel +:+ ". Image saved.").

Definition mel_spectrogram_transform (csv_file channel : string) : M unit :=
  render MelSpectrogram "_mel_spectrogram.png" csv_file channel;;
  print ("Mel Spectrogram transformation completed for " +:+ channel
         +:+ ". Image saved.").

Definition s_transform (csv_file channel : string) : M unit :=
  render STransform "_s_transform.png" csv_file channel;;
  print ("S-Transform (simplified) completed for " +:+ channel
         +:+ ". Image saved.").

Definition wigner_ville_distribution (csv_file channel : string) : M unit :=
  render WignerVille "_wvd.png" csv_file channel;;
  print ("Wigner-Ville Distribution transformation completed for " +:+ channel
         +:+ ". Image saved.").

Definition perform_transformation
    (merge_csv_path : string) (channels : list string) (algorithm : Z) : M unit :=
  for_in channels (λ channel _,
    if algorithm =? 1 then mel_spectrogram_transform merge_csv_path channel
    else if algorithm =? 2 then stft_transform merge_csv_path channel
    else if algorithm =? 3 then cwt_transform merge_csv_path channel
    else if algorithm =? 4 then wigner_ville_distribution merge_csv_path channel
    else if algorithm =? 5 then s_transform merge_csv_path channel
    else print ("Algorithm " +:+ pretty algorithm +:+ " not implemented for "
                +:+ channel +:+ ".")) ().

(** ** Directory scan, ordering and the worker pool *)

(** The name of [path] inside [folder], when [path] lies directly in it. *)
Definition child_name (folder path : string) : option string :=
  let pre := if endswith folder "/" then folder else folder +:+ "/" in
  if startswith path pre then
    let rest := String.substring (String.length pre)
                  (String.length path - String.length pre) path in
    match rest, String.index 0 "/" rest with
    | String _ _, None => Some rest
    | _, _ => None
    end
  else None.

(** [os.listdir(folder)], in the arbitrary order the system chooses. *)
Definition listdir (folder : string) : M (list string) := λ w,
  match fs w !! folder with
  | Some (Dir _) => (Ok (omap (child_name folder) (map_to_list (fs w)).*1), w)
  | Some (File _ _) => (Raise (NotADirectoryError folder), w)
  | None => (Raise (FileNotFoundError folder), w)
  end.

(** [sorted]: a stable sort; an insertion sort computes the same list. *)
Fixpoint insert_sorted {A} (le : A → A → bool) (x : A) (l : list A) : list A :=
  match l with
  | [] => [x]
  | y :: l' => if le x y then x :: l else y :: insert_sorted le x l'
  end.

Definition sorted {A} (le : A → A → bool) (l : list A) : list A :=
  foldr (insert_sorted le) [] l.

(** One key of [sorted(paths, key=lambda x: os.path.getmtime(x))]. *)
Definition with_mtime (x : string) (keyed : list (Z * string))
  : M (list (Z * string)) :=
  t ← getmtime x; mret (keyed ++ [(t, x)]).

(** [sorted(paths, key=lambda x: os.path.getmtime(x))]: the keys are
    computed first, one per element, then the pairs are sorted on the key. *)
Definition sorted_by_mtime (paths : list string) : M (list string) :=
  keyed ← for_in paths with_mtime [];
  mret (snd <$> sorted (λ a b : Z * string, a.1 <=? b.1) keyed).

(** One task of the pool: a conversion whose outcome, value or exception,
    is kept in its future. *)
Definition run_task (folder_path output_folder filename : string)
    (futures : list (result string)) : M (list (result string)) := λ w,
  let '(r, w') :=
    convert_tdms_to_csv (path_join folder_path filename) output_folder w in
  (Ok (futures ++ [r]), w').

(** The pool runs one conversion per submitted name.  A task that raises
    does not affect the other tasks.  The tasks are taken in completion
    order, each as one step. *)
Definition run_pool (folder_path output_folder : string) (tasks : list string)
  : M (list (result string)) :=
  for_in tasks (run_task folder_path output_folder) [].

(** [future.result()]: the task's value, or its exception raised again. *)
Definition future_result (future : result string) : M string := λ w, (future, w).

Definition truthy_channels (channels : option (list string)) : bool :=
  match channels with Some (_ :: _) => true | _ => false end.

Definition truthy_algorithm (algorithm : option Z) : bool :=
  match algorithm with Some a => negb (a =? 0) | None => false end.

Definition truthy_path (p : option string) : bool :=
  match p with Some s => truthy s | None => false end.

(** The body of the loop over [as_completed]. *)
Definition collect_one (future : result string) (csv_files : list string)
  : M (list string) :=
  csv_path ← future_result future;
  if truthy csv_path then
    print ("Converted: " +:+ csv_path);;
    mret (csv_files ++ [csv_path])
  else mret csv_files.

(** The loop over [as_completed]: gather the paths, in completion order. *)
Definition collect_results (futures : list (result string)) : M (list string) :=
  for_in futures collect_one [].

(** The merge step of [process_folder]; [merged_csv_path] starts as the
    empty string. *)
Definition merge_stage (output_folder : string) (should_merge : bool)
    (csv_files : list string) (now : string) : M (option string) :=
  if should_merge && bool_decide (csv_files ≠ []) then
    csv_files_sorted ← sorted_by_mtime csv_files;
    merge_csv_files csv_files_sorted output_folder now
  else mret (Some EmptyString).

(** The transform step of [process_folder]. *)
Definition transform_stage (should_merge transform : bool)
    (channels : option (list string)) (algorithm : option Z)
    (merged_csv_path : option string) (csv_files : list string) : M unit :=
  if transform && truthy_channels channels && truthy_algorithm algorithm then
    if should_merge && truthy_path merged_csv_path then
      perform_transformation (default EmptyString merged_csv_path)
        (default [] channels) (default 0 algorithm)
    else if negb should_merge then
      for_in csv_files (λ csv_file _,
        perform_transformation csv_file
          (default [] channels) (default 0 algorithm)) ()
    else mret ()
  else mret ().

(** The names submitted to the pool, in submission order. *)
Definition submitted_names (names : list string) : list string :=
  filter (λ filename, endswith (lower filename) ".tdms") (sorted String.leb names).

Definition process_folder
    (folder_path output_folder : string) (should_merge transform : bool)
    (channels : option (list string)) (algorithm : option Z)
    (now : string) : M unit :=
  names ← listdir folder_path;
  futures ← run_pool folder_path output_folder
              (completion_order (submitted_names names));
  csv_files ← collect_results futures;
  merged_csv_path ← merge_stage output_folder should_merge csv_files now;
  transform_stage should_merge transform channels algorithm
    merged_csv_path csv_files.

(** ** Command line *)

Record Args := {
  arg_path : string;
  arg_output : option string;
  arg_merge : bool;
  arg_transform : bool;
  arg_channels : option (list string);
  arg_algorithm : option Z
}.

Definition isdir (p : string) : M bool := λ w,
  (Ok (match fs w !! p with Some (Dir _) => true | _ => false end), w).

Definition isfile (p : string) : M bool := λ w,
  (Ok (match fs w !! p with Some (File _ _) => true | _ => false end), w).

Definition path_exists (p : string) : M bool := λ w,
  (Ok (bool_decide (is_Some (fs w !! p))), w).

(** [os.mkdir(p)] *)
Definition mkdir (p : string) : M unit := λ w,
  match fs w !! p with
  | Some _ => (Raise (FileExistsError p), w)
  | None =>
      match fs w !! parent p with
      | Some (Dir _) =>
          (Ok (), {| fs := <[p := Dir (clock (ticks w))]> (fs w);
                     stdout := stdout w; ticks := S (ticks w) |})
      | Some (File _ _) => (Raise (NotADirectoryError p), w)
      | None => (Raise (FileNotFoundError p), w)
      end
  end.

(** The directories above [p] that [os.makedirs] has to create: it climbs
    until one exists. *)
Fixpoint missing_heads (m : gmap string node) (hs : list string) : list string :=
  match hs with
  | [] => []
  | h :: hs' =>
      match m !! h with
      | Some _ => []
      | None => missing_heads m hs' ++ [h]
      end
  end.

(** [os.makedirs(p)] on a normalised path: the missing directories above
    [p] are created from the outermost on, then [p] itself. *)
Definition makedirs (p : string) : M unit := λ w,
  (for_in (missing_heads (fs w) (heads p)) (λ d _, mkdir d) ();; mkdir p) w.

(** [main], from the parsed arguments on.  [today] and [now] are what
    [datetime.now().strftime('%Y%m%d%H%M')] gives in [main] and later in
    [process_folder]. *)
Definition main (args : Args) (cwd today now : string) : M unit :=
  let tdms_path := abspath cwd (arg_path args) in
  let output_folder :=
    abspath cwd (if truthy_path (arg_output args)
                 then default EmptyString (arg_output args)
                 else path_join cwd (today +:+ "_tdms")) in
  present ← path_exists output_folder;
  (if present : bool then mret () else makedirs output_folder);;
  d ← isdir tdms_path;
  if d : bool then
    process_folder tdms_path output_folder (arg_merge args) (arg_transform args)
      (arg_channels args) (arg_algorithm args) now
  else
    f ← isfile tdms_path;
    if (f : bool) && endswith (lower tdms_path) ".tdms" then
      csv_path ← convert_tdms_to_csv tdms_path output_folder;
      if arg_transform args && truthy_channels (arg_channels args)
         && truthy_algorithm (arg_algorithm args) then
        perform_transformation csv_path
          (default [] (arg_channels args)) (default 0 (arg_algorithm args))
      else mret ()
    else mret ().

(** ** Reading the merge loop as a function of the file system *)

Definition with_stdout (w : World) (lines : list string) : World :=
  {| fs := fs w; stdout := lines; ticks := ticks w |}.

(** The frame the reading loop keeps of [file]: it parses and is not empty. *)
Definition survivor (m : gmap string node) (file : string) : option DataFrame :=
  match parse_csv file (m !! file) with
  | Ok df => if df_empty df then None else Some df
  | Raise _ => None
  end.

Definition survivors (m : gmap string node) (files : list string)
  : list DataFrame :=
  omap (survivor m) files.

(** The frame as the loop stores it, under positional names. *)
Definition standardize (df : DataFrame) : DataFrame :=
  set_columns df (standardized_columns (length (columns df))).

(** The line the reading loop prints for [file]. *)
Definition merge_notice (m : gmap string node) (file : string) : string :=
  match parse_csv file (m !! file) with
  | Ok df =>
      if df_empty df then "Skipping empty file: " +:+ file
      else "Processed file: " +:+ file +:+ " | Columns = "
           +:+ pretty (length (columns df)) +:+ ", Rows = " +:+ pretty (df_len df)
  | Raise EmptyDataError => "No data in " +:+ file +:+ ", skipping."
  | Raise e => "Error reading " +:+ file +:+ ": " +:+ exn_message e
  end.

Definition merged_filename (output_folder timestamp : string) : string :=
  path_join output_folder ("merge_csv_" +:+ timestamp +:+ ".csv").

Definition width (df : DataFrame) : nat := length (columns df).

(** Width of the widest frame. *)
Definition max_width (dfs : list DataFrame) : nat := max_list (width <$> dfs).

(** Every row has one cell per column. *)
Definition well_formed (df : DataFrame) : Prop :=
  Forall (λ r : label * list cell, length r.2 = width df) (rows df).

(** A row as it appears in a table [n] columns wide: its own cells, then
    missing cells. *)
Definition padded (n : nat) (df : DataFrame) : list (list cell) :=
  (λ r : label * list cell, r.2 ++ replicate (n - width df) NaN) <$> rows df.

(** Where [convert_tdms_to_csv] writes the table of [tdms_path]. *)
Definition csv_path_of (tdms_path output_folder : string) : string :=
  path_join output_folder
    (replace ".tdms" ".csv" (sanitize_filename (basename tdms_path))).

(** The modification time recorded for [path]. *)
Definition mtime_of (w : World) (path : string) : Z :=
  match fs w !! path with
  | Some (File _ t) | Some (Dir t) => t
  | None => 0
  end.

(** [path] can be created or replaced: it lies in an existing directory and
    is not itself a directory. *)
Definition can_write (m : gmap string node) (path : string) : bool :=
  match m !! parent path, m !! path with
  | Some (Dir _), Some (Dir _) => false
  | Some (Dir _), _ => true
  | _, _ => false
  end.

(** A file reads as empty: a header without rows, or no header at all. *)
Definition reads_empty (m : gmap string node) (file : string) : bool :=
  match parse_csv file (m !! file) with
  | Ok df => df_empty df
  | Raise EmptyDataError => true
  | Raise _ => false
  end.

(** ** Sample worlds *)

Definition sample_clock (n : nat) : Z := 100 + Z.of_nat n.

Definition sample_spectral (r : routine) (data : list cell) : result image :=
  Ok [[Z.of_nat (length data)]].

Definition narrow : table :=
  {| header := ["time"; "volt"]; body := [[Val 0; Val 5]; [Val 1; Val 7]] |}.

Definition wide : table :=
  {| header := ["x"; "y"; "z"]; body := [[Val 9; Val 8; Val 7]] |}.

Definition header_only : table := {| header := ["time"; "volt"]; body := [] |}.

(** An output directory holding converted tables. *)
Definition merge_world : World :=
  {| fs := list_to_map
       [("/out", Dir 0);
        ("/out/narrow.csv", File (Csv narrow) 1);
        ("/out/wide.csv", File (Csv wide) 2);
        ("/out/empty.csv", File (Csv header_only) 3);
        ("/out/blank.csv", File Blank 4)];
     stdout := []; ticks := 0 |}.

(** A capture directory with two good captures. *)
Definition good_world : World :=
  {| fs := list_to_map
       [("/data", Dir 0); ("/out", Dir 0);
        ("/data/a.tdms", File (Tdms narrow) 1);
        ("/data/b.tdms", File (Tdms wide) 2)];
     stdout := []; ticks := 0 |}.

(** A capture directory with one good and one corrupt capture. *)
Definition batch_world : World :=
  {| fs := list_to_map
       [("/data", Dir 0); ("/out", Dir 0);
        ("/data/a.tdms", File (Tdms narrow) 1);
        ("/data/c.tdms", File Junk 2)];
     stdout := []; ticks := 0 |}.

(** A capture whose extension is in upper case. *)
Definition upper_world : World :=
  {| fs := list_to_map
       [("/data", Dir 0); ("/out", Dir 0);
        ("/data/RUN1.TDMS", File (Tdms narrow) 1)];
     stdout := []; ticks := 0 |}.

(** A table with a short line, a blank line and an integer beyond 2^53. *)
Definition ragged : table :=
  {| header := ["a"; "b"; "c"];
     body := [[Val 1; Val 2; Val 3]; [Val 4]; [];
              [Val 5; Val 9007199254740993; Val 6]] |}.

(** A table whose first line has one field more than its header. *)
Definition labelled : table :=
  {| header := ["p"; "q"];
     body := [[Val 10; Val 1; Val 2]; [Val 20; Val 3; Val 4]] |}.

(** A table with a line longer than the first. *)
Definition overlong : table :=
  {| header := ["p"; "q"];
     body := [[Val 1; Val 2]; [Val 3; Val 4; Val 5; Val 6]] |}.

(** An output directory with tables of irregular shape; [/out/sub] is a
    regular file. *)
Definition ragged_world : World :=
  {| fs := list_to_map
       [("/out", Dir 0);
        ("/out/wide.csv", File (Csv wide) 1);
        ("/out/empty.csv", File (Csv header_only) 2);
        ("/out/ragged.csv", File (Csv ragged) 3);
        ("/out/labelled.csv", File (Csv labelled) 4);
        ("/out/overlong.csv", File (Csv overlong) 6);
        ("/out/sub", File Junk 5)];
     stdout := []; ticks := 0 |}.

(** Converted tables, two pairs of which were written at the same time. *)
Definition tie_world : World :=
  {| fs := list_to_map
       [("/out", Dir 0);
        ("/out/c.csv", File (Csv narrow) 5);
        ("/out/a.csv", File (Csv narrow) 3);
        ("/out/b.csv", File (Csv wide) 5);
        ("/out/d.csv", File (Csv wide) 3)];
     stdout := []; ticks := 0 |}.

(** A capture directory next to a file of zero bytes named like a
    capture. *)
Definition main_world : World :=
  {| fs := list_to_map
       [("/", Dir 0); ("/data", Dir 0); ("/out", Dir 0);
        ("/data/a.tdms", File (Tdms narrow) 1);
        ("/data/short.tdms", File (Tdms ragged) 2);
        ("/data/zero.tdms", File Blank 3);
        ("/data/notes.txt", File Junk 4)];
     stdout := []; ticks := 0 |}.

(** ** Further vocabulary for the properties *)

(** The characters of a string, in order. *)
Definition chars (s : string) : list ascii := String.list_ascii_of_string s.

(** The routines [perform_transformation] knows, by selector: the routine,
    the end of the image's file name and the start of the progress line. *)
Definition supported (algorithm : Z) : option (routine * string * string) :=
  if algorithm =? 1 then
    Some (MelSpectrogram, "_mel_spectrogram.png", "Mel Spectrogram transformation")
  else if algorithm =? 2 then Some (STFT, "_stft.png", "STFT transformation")
  else if algorithm =? 3 then Some (CWT, "_cwt.png", "CWT transformation")
  else if algorithm =? 4 then
    Some (WignerVille, "_wvd.png", "Wigner-Ville Distribution transformation")
  else if algorithm =? 5 then
    Some (STransform, "_s_transform.png", "S-Transform (simplified)")
  else None.

(** The output folder [main] settles on. *)
Definition main_output_folder (args : Args) (cwd today : string) : string :=
  abspath cwd (if truthy_path (arg_output args)
               then default EmptyString (arg_output args)
               else path_join cwd (today +:+ "_tdms")).

(** A numeric collaborator that needs at least three samples. *)
Definition strict_spectral (r : routine) (data : list cell) : result image :=
  if (length data <? 3)%nat then Raise (NumericError r)
  else Ok [[Z.of_nat (length data)]].

(** ** Properties *)

(** *** Running a sequence of steps *)

Lemma bind_run {A B} (m : M A) (f : A → M B) w a w' :
  m w = (Ok a, w') → (m ≫= f) w = f a w'.
Proof. unfold mbind, M_bind. by intros ->. Qed.

Lemma bind_assoc_run {A B C} (m : M A) (f : A → M B) (g : B → M C) w :
  ((m ≫= f) ≫= g) w = (m ≫= (λ a, f a ≫= g)) w.
Proof. unfold mbind, M_bind. by destruct (m w) as [[a|e] w']. Qed.

(** *** Positional column names *)

Lemma ch_name_inj i j : ch_name i = ch_name j → i = j.
Proof.
  unfold ch_name. intros H.
  apply (inj (String.app "CH")) in H.
  by apply (inj pretty) in H.
Qed.

Lemma standardized_columns_length k : length (standardized_columns k) = k.
Proof. unfold standardized_columns. by rewrite length_fmap, length_seq. Qed.

Lemma standardized_columns_lookup k i :
  standardized_columns k !! i
  = if decide (i < k)%nat then Some (ch_name i) else None.
Proof.
  unfold standardized_columns. rewrite list_lookup_fmap.
  case_decide.
  - by rewrite lookup_seq_lt.
  - by rewrite lookup_seq_ge by lia.
Qed.

Lemma elem_of_standardized_columns k i :
  ch_name i ∈ standardized_columns k ↔ (i < k)%nat.
Proof.
  unfold standardized_columns. rewrite list_elem_of_fmap. split.
  - intros (j & Hj & Hin). apply ch_name_inj in Hj as ->.
    apply elem_of_seq in Hin. lia.
  - intros Hi. exists i. split; [done|]. apply elem_of_seq. lia.
Qed.

Lemma standardized_columns_app m k :
  standardized_columns (m + k) = standardized_columns m ++ (ch_name <$> seq m k).
Proof. unfold standardized_columns. by rewrite seq_app, fmap_app. Qed.

Lemma filter_none {A} (P : A → Prop) `{!∀ x, Decision (P x)} (l : list A) :
  Forall (λ x, ¬ P x) l → filter P l = [].
Proof.
  induction 1 as [|x l Hx _ IH]; [done|].
  by rewrite filter_cons_False.
Qed.

Lemma filter_all {A} (P : A → Prop) `{!∀ x, Decision (P x)} (l : list A) :
  Forall P l → filter P l = l.
Proof.
  induction 1 as [|x l Hx _ IH]; [done|].
  rewrite filter_cons_True by done. by rewrite IH.
Qed.

Lemma union_columns_standardized m k :
  union_columns (standardized_columns m) (standardized_columns k)
  = standardized_columns (m `max` k).
Proof.
  unfold union_columns.
  destruct (decide (k ≤ m)%nat) as [Hle|Hgt].
  - rewrite Nat.max_l by done.
    rewrite filter_none; [by rewrite app_nil_r|].
    apply Forall_forall. intros c Hc Hnot. apply Hnot.
    unfold standardized_columns in Hc.
    apply list_elem_of_fmap in Hc as (j & -> & Hj).
    apply elem_of_seq in Hj. apply elem_of_standardized_columns. lia.
  - rewrite Nat.max_r by lia.
    replace k with (m + (k - m))%nat by lia.
    rewrite standardized_columns_app, filter_app. f_equal.
    rewrite filter_none, filter_all; [done| |].
    + apply Forall_forall. intros c Hc.
      apply list_elem_of_fmap in Hc as (j & -> & Hj).
      apply elem_of_seq in Hj. rewrite elem_of_standardized_columns. lia.
    + apply Forall_forall. intros c Hc Hnot. apply Hnot.
      apply list_elem_of_fmap in Hc as (j & -> & Hj).
      apply elem_of_seq in Hj. apply elem_of_standardized_columns. lia.
Qed.

Lemma foldl_union_columns_standardized ks m :
  foldl union_columns (standardized_columns m) (standardized_columns <$> ks)
  = standardized_columns (m `max` max_list ks).
Proof.
  revert m. induction ks as [|k ks IH]; intros m; simpl.
  - by rewrite Nat.max_0_r.
  - rewrite union_columns_standardized, IH. f_equal. lia.
Qed.

(** A row of a frame with the first [k] positional names, seen under the
    first [n] names, keeps its cells and gains missing cells on the right. *)
Lemma reindex_standardized k n (r : list cell) :
  length r = k → (k ≤ n)%nat →
  reindex (standardized_columns k) r (standardized_columns n)
  = r ++ replicate (n - k) NaN.
Proof.
  intros Hr Hkn. apply list_eq. intros i.
  unfold reindex. rewrite list_lookup_fmap, standardized_columns_lookup.
  case_decide as Hi; simpl.
  - destruct (decide (i < k)%nat) as [Hik|Hik].
    + assert (list_find (λ c', c' = ch_name i) (standardized_columns k)
              = Some (i, ch_name i)) as ->.
      { apply list_find_Some. split_and!; [|done|].
        - rewrite standardized_columns_lookup. by case_decide.
        - intros j y Hj Hji ->. rewrite standardized_columns_lookup in Hj.
          case_decide as Hjk; [|done]. apply (inj Some) in Hj.
          apply ch_name_inj in Hj. lia. }
      rewrite lookup_app_l by lia.
      destruct (lookup_lt_is_Some_2 r i) as [x Hx]; [lia|]. by rewrite Hx.
    + assert (list_find (λ c', c' = ch_name i) (standardized_columns k) = None) as ->.
      { apply list_find_None, Forall_forall. intros c Hc ->.
        apply elem_of_standardized_columns in Hc. lia. }
      rewrite lookup_app_r by lia.
      by rewrite lookup_replicate_2 by lia.
  - symmetry. apply lookup_ge_None. rewrite length_app, length_replicate. lia.
Qed.

(** *** The reading loop *)

Lemma merge_read_run file acc w :
  merge_read file acc w
  = (Ok (acc ++ option_list (standardize <$> survivor (fs w) file)),
     with_stdout w (stdout w ++ [merge_notice (fs w) file])).
Proof.
  unfold merge_read, try_except, read_csv, survivor, merge_notice.
  unfold mbind, M_bind.
  destruct (parse_csv file (fs w !! file)) as [df|e]; simpl.
  - destruct (df_empty df); simpl.
    + by rewrite app_nil_r.
    + unfold print, with_stdout; simpl.
      by rewrite standardized_columns_length.
  - destruct e; simpl; by rewrite app_nil_r.
Qed.

Lemma merge_loop_run files acc w :
  for_in files merge_read acc w
  = (Ok (acc ++ (standardize <$> survivors (fs w) files)),
     with_stdout w (stdout w ++ (merge_notice (fs w) <$> files))).
Proof.
  revert acc w. induction files as [|file files IH]; intros acc w; simpl.
  - unfold mret, M_ret, with_stdout. rewrite !app_nil_r. by destruct w.
  - unfold mbind, M_bind. rewrite merge_read_run, IH. simpl.
    unfold survivors at 2. simpl. fold (survivors (fs w) files).
    f_equal.
    + f_equal. destruct (survivor (fs w) file); simpl;
        by rewrite <-?app_assoc, ?app_nil_r.
    + unfold with_stdout; simpl. by rewrite <-app_assoc.
Qed.

Lemma merged_dataframe_run files w :
  merged_dataframe files w
  = (Ok (match standardize <$> survivors (fs w) files with
         | [] => None
         | dfs => Some (pd_concat dfs true)
         end),
     with_stdout w (stdout w ++ (merge_notice (fs w) <$> files))).
Proof.
  unfold merged_dataframe. unfold mbind at 1. unfold M_bind at 1.
  rewrite merge_loop_run. simpl.
  by destruct (standardize <$> survivors (fs w) files).
Qed.

Lemma to_csv_writable df path w :
  can_write (fs w) path = true →
  to_csv df path w = store path (csv_of df) w.
Proof.
  unfold can_write, to_csv, write_file.
  destruct (fs w !! parent path) as [[c mt|mt]|]; try done.
  by destruct (fs w !! path) as [[c' mt'|mt']|].
Qed.

Lemma to_csv_refused df path w :
  can_write (fs w) path = false →
  ∃ e, to_csv df path w = (Raise e, w).
Proof.
  unfold can_write, to_csv, write_file.
  destruct (fs w !! parent path) as [[c mt|mt]|]; eauto.
  destruct (fs w !! path) as [[c' mt'|mt']|]; eauto; done.
Qed.

(** [merge_csv_files], run from [w], as a function of the frames kept. *)
Lemma merge_csv_files_run files output_folder timestamp w :
  merge_csv_files files output_folder timestamp w
  = let dfs := standardize <$> survivors (fs w) files in
    let lines := stdout w ++ (merge_notice (fs w) <$> files) in
    match dfs with
    | [] => (Ok None, with_stdout w (lines ++ ["No valid CSV files to merge."]))
    | _ :: _ =>
        let merged_df := pd_concat dfs true in
        let path := merged_filename output_folder timestamp in
        let w1 :=
          with_stdout w
            (lines
             ++ ["After Processed file: " +:+ default EmptyString (last files)
                 +:+ " | Columns = " +:+ pretty (length (columns merged_df))
                 +:+ ", Rows = " +:+ pretty (df_len merged_df)]) in
        match to_csv merged_df path w1 with
        | (Ok _, w2) =>
            (Ok (Some path),
             with_stdout w2 (stdout w2 ++ ["Merged CSV files into " +:+ path]))
        | (Raise e, w2) => (Raise e, w2)
        end
    end.
Proof.
  unfold merge_csv_files. unfold mbind at 1. unfold M_bind at 1.
  rewrite merged_dataframe_run. cbn zeta.
  destruct (standardize <$> survivors (fs w) files) as [|df dfs]; [done|].
  unfold mbind, M_bind, mret, M_ret, print, with_stdout, merged_filename.
  cbn [fs stdout ticks].
  by destruct (to_csv _ _ _) as [[u|e] w2].
Qed.
(** *** Column types *)

Lemma upcast_columns_length b : length (upcast_columns b) = length b.
Proof. unfold upcast_columns. apply length_fmap. Qed.

Lemma upcast_columns_widths n b :
  Forall (λ r, length r = n) b → Forall (λ r, length r = n) (upcast_columns b).
Proof.
  intros Hb. unfold upcast_columns. apply Forall_fmap.
  eapply Forall_impl; [exact Hb|]. intros r Hr. simpl. by rewrite length_imap.
Qed.

Lemma pad_to_length n r : (length r ≤ n)%nat → length (pad_to n r) = n.
Proof. intros Hr. unfold pad_to. rewrite length_app, length_replicate. lia. Qed.

(** *** Concatenation of frames under positional names *)

Lemma read_table_shape t df :
  read_table t = Ok df → well_formed df.
Proof.
  unfold read_table. destruct (header t) as [|c cs] eqn:Hh; [done|].
  set (k := length (c :: cs)).
  set (lines := numbered_lines t).
  set (d := match lines with l :: _ => (length l.2 - k)%nat | [] => 0%nat end).
  destruct (list_find _ lines) as [[i l]|] eqn:Hfind; [done|].
  intros [= <-]. unfold well_formed, width. cbn [rows columns]. fold k.
  apply list_find_None in Hfind.
  set (cells := upcast_columns _).
  assert (Forall (λ r, length r = k) cells) as Hcells.
  { apply upcast_columns_widths, Forall_fmap, Forall_fmap.
    eapply Forall_impl; [exact Hfind|]. intros l Hl. simpl in *.
    rewrite length_drop, pad_to_length by lia. lia. }
  apply Forall_forall. intros [lab r] Hin.
  apply elem_of_zip_r in Hin. rewrite Forall_forall in Hcells. by apply Hcells.
Qed.

Lemma survivor_shape m file df :
  survivor m file = Some df → df_empty df = false ∧ well_formed df.
Proof.
  unfold survivor, parse_csv. intros H.
  destruct (m !! file) as [[[t| t | | |] mt|]|]; try done.
  destruct (read_table t) as [df'|e] eqn:Hread; [|done].
  destruct (df_empty df') eqn:He; [done|].
  injection H as <-. split; [done|]. by eapply read_table_shape.
Qed.

Lemma columns_concat_standardized dfs b :
  columns (pd_concat (standardize <$> dfs) b) = standardized_columns (max_width dfs).
Proof.
  unfold pd_concat, max_width; simpl.
  rewrite <-list_fmap_compose.
  change [] with (standardized_columns 0).
  rewrite (list_fmap_ext (columns ∘ standardize) (standardized_columns ∘ width) dfs)
    by done.
  rewrite list_fmap_compose. by rewrite foldl_union_columns_standardized.
Qed.

(** The rows of a concatenation before the columns take their type. *)
Lemma stacked_cells dfs cols :
  snd <$> (dfs ≫= (λ df, (λ r : label * list cell,
                            (r.1, reindex (columns df) r.2 cols)) <$> rows df))
  = dfs ≫= (λ df, (λ r : label * list cell, reindex (columns df) r.2 cols)
                  <$> rows df).
Proof.
  induction dfs as [|df dfs IH]; [done|].
  rewrite !bind_cons, fmap_app, IH. f_equal.
  by rewrite <-list_fmap_compose.
Qed.

Lemma cells_concat dfs b :
  snd <$> rows (pd_concat dfs b)
  = upcast_columns
      (dfs ≫= (λ df, (λ r : label * list cell,
                        reindex (columns df) r.2 (columns (pd_concat dfs b)))
                     <$> rows df)).
Proof.
  unfold pd_concat at 1. cbn [rows columns].
  set (cols := columns (pd_concat dfs b)).
  assert (cols = foldl union_columns [] (columns <$> dfs)) as <- by done.
  rewrite snd_zip, stacked_cells; [done|].
  rewrite upcast_columns_length, length_fmap.
  destruct b; by rewrite ?length_fmap, ?length_seq.
Qed.

Lemma length_stacked {A} (dfs : list DataFrame) (f : DataFrame → label * list cell → A) :
  length (dfs ≫= (λ df, f df <$> rows df)) = sum_list (df_len <$> dfs).
Proof.
  induction dfs as [|df dfs IH]; [done|].
  rewrite bind_cons, length_app, length_fmap, IH. done.
Qed.

Lemma length_concat dfs b :
  df_len (pd_concat dfs b) = sum_list (df_len <$> dfs).
Proof.
  unfold df_len. rewrite <-(length_fmap snd), cells_concat.
  rewrite upcast_columns_length. apply length_stacked.
Qed.

(** With [ignore_index] the row labels are the positions 0, 1, 2, ...
    whatever the labels of the frames were. *)
Lemma index_concat_fresh dfs :
  df_index (pd_concat dfs true) = Pos <$> seq 0 (df_len (pd_concat dfs true)).
Proof.
  rewrite length_concat.
  unfold df_index, pd_concat. cbn [rows].
  rewrite fst_zip.
  - by rewrite length_stacked.
  - by rewrite upcast_columns_length, !length_fmap, length_seq.
Qed.

Lemma cells_concat_standardized dfs b :
  Forall well_formed dfs →
  snd <$> rows (pd_concat (standardize <$> dfs) b)
  = upcast_columns (dfs ≫= padded (max_width dfs)).
Proof.
  intros Hwf. rewrite cells_concat, columns_concat_standardized. f_equal.
  assert (Forall (λ df, width df ≤ max_width dfs)%nat dfs) as Hle.
  { apply Forall_forall. intros df Hdf.
    apply max_list_elem_of_le, list_elem_of_fmap. eauto. }
  revert Hle. generalize (max_width dfs). intros n Hle.
  induction Hwf as [|df dfs Hdf _ IH]; [done|].
  apply Forall_cons in Hle as [Hn Hle].
  rewrite fmap_cons, !bind_cons, IH by done. f_equal.
  unfold padded, standardize; simpl.
  apply Forall_fmap_ext, Forall_forall. intros r Hr.
  apply reindex_standardized; [|done].
  unfold well_formed in Hdf. rewrite Forall_forall in Hdf. by apply Hdf.
Qed.

Lemma to_float_not_int c : is_int (to_float c) = false.
Proof.
  destruct c as [|v|m e]; try done. simpl. unfold float_of_int.
  by destruct (_ <=? _).
Qed.

Lemma to_float_idem c : to_float (to_float c) = to_float c.
Proof.
  destruct c as [|v|m e]; try done. simpl. unfold float_of_int.
  by destruct (_ <=? _).
Qed.

Lemma int_column_upcast b j :
  int_column (upcast_columns b) j = int_column b j.
Proof.
  destruct (int_column b j) eqn:Hj.
  - pose proof Hj as Hall. unfold int_column in Hall.
    rewrite forallb_forall in Hall.
    unfold int_column at 1. apply forallb_forall. intros r' Hr'.
    apply list_elem_of_In in Hr'. unfold upcast_columns in Hr'.
    apply list_elem_of_fmap in Hr' as (r & -> & Hr).
    rewrite list_lookup_imap.
    specialize (Hall r (proj1 (list_elem_of_In _ _) Hr)).
    destruct (r !! j) as [c|]; [|done]. simpl. by rewrite Hj.
  - apply not_true_iff_false. intros Hup.
    apply not_true_iff_false in Hj. apply Hj.
    unfold int_column. apply forallb_forall. intros r Hr.
    unfold int_column in Hup at 1. rewrite forallb_forall in Hup.
    specialize (Hup (imap (λ j0 c, if int_column b j0 then c else to_float c) r)).
    rewrite list_lookup_imap in Hup.
    assert (In (imap (λ j0 c, if int_column b j0 then c else to_float c) r)
              (upcast_columns b)) as Hin.
    { apply list_elem_of_In. unfold upcast_columns.
      apply list_elem_of_fmap. exists r. split; [done|].
      by apply list_elem_of_In. }
    specialize (Hup Hin).
    destruct (r !! j) as [c|] eqn:Hc; simpl in Hup; [|done].
    destruct (int_column b j) eqn:Hb; [done|].
    by rewrite to_float_not_int in Hup.
Qed.

Lemma upcast_columns_idem b :
  upcast_columns (upcast_columns b) = upcast_columns b.
Proof.
  unfold upcast_columns at 1. unfold upcast_columns at 2.
  rewrite <-list_fmap_compose.
  apply list_fmap_ext. intros i r _. simpl.
  apply list_eq. intros j. rewrite !list_lookup_imap.
  destruct (r !! j) as [c|]; [|done]. simpl. f_equal.
  fold (upcast_columns b). rewrite int_column_upcast.
  destruct (int_column b j); [done|]. apply to_float_idem.
Qed.

(** The cells of a frame read from a file have one type per column already:
    typing the columns again changes nothing. *)
Lemma read_table_typed t df :
  read_table t = Ok df → upcast_columns (snd <$> rows df) = snd <$> rows df.
Proof.
  unfold read_table. destruct (header t) as [|c h]; [done|].
  destruct (list_find _ _) as [[i l]|]; [done|].
  intros [= <-]. cbn [rows].
  rewrite snd_zip; [apply upcast_columns_idem|].
  rewrite upcast_columns_length.
  match goal with
  | |- context [match ?d with O => Pos <$> _ | S _ => _ end] => destruct d
  end; rewrite !length_fmap, ?length_seq; lia.
Qed.

Lemma read_csv_typed file w df w' :
  read_csv file w = (Ok df, w') →
  upcast_columns (snd <$> rows df) = snd <$> rows df.
Proof.
  unfold read_csv. intros [= Hparse _]. unfold parse_csv in Hparse.
  destruct (fs w !! file) as [[[t|t| | |r i] mt|mt]|]; try done.
  by eapply read_table_typed.
Qed.
(** *** Merge *)

Lemma merge_csv_files_some files output_folder timestamp w df dfs :
  survivors (fs w) files = df :: dfs →
  can_write (fs w) (merged_filename output_folder timestamp) = true →
  let merged_df := pd_concat (standardize <$> df :: dfs) true in
  let path := merged_filename output_folder timestamp in
  ∃ w',
    merge_csv_files files output_folder timestamp w = (Ok (Some path), w') ∧
    fs w' = <[path := File (csv_of merged_df) (clock (ticks w))]> (fs w).
Proof.
  intros Hs Hw. rewrite merge_csv_files_run, Hs. cbn zeta.
  rewrite fmap_cons. rewrite to_csv_writable by done. eauto.
Qed.

Lemma max_list_bounded (ns : list nat) (b : nat) :
  Forall (λ n, n ≤ b)%nat ns → (max_list ns ≤ b)%nat.
Proof. induction 1; simpl; lia. Qed.

Lemma survivors_well_formed m files : Forall well_formed (survivors m files).
Proof.
  apply Forall_forall. intros df Hdf.
  apply list_elem_of_omap in Hdf as (file & _ & Hf).
  by apply survivor_shape in Hf as (_ & ?).
Qed.

Lemma padded_same_width n df :
  width df = n → padded n df = snd <$> rows df.
Proof.
  intros <-. unfold padded. rewrite Nat.sub_diag.
  apply list_fmap_ext. intros i r _. simpl. apply app_nil_r.
Qed.

(** C2 (as amended): when at least one table survives and the merged file
    can be written, the merged output has the columns CH0 .. CH(n-1) where n
    is the largest column count among the surviving tables; n is the first
    table's column count whenever no later surviving table is wider. *)
Theorem merge_width_is_widest files output_folder timestamp w df dfs :
  survivors (fs w) files = df :: dfs →
  can_write (fs w) (merged_filename output_folder timestamp) = true →
  ∃ w' t mtime,
    merge_csv_files files output_folder timestamp w
    = (Ok (Some (merged_filename output_folder timestamp)), w') ∧
    fs w' !! merged_filename output_folder timestamp = Some (File (Csv t) mtime) ∧
    header t = standardized_columns (max_width (df :: dfs)) ∧
    length (header t) = max_width (df :: dfs) ∧
    (Forall (λ d, width d ≤ width df)%nat dfs → length (header t) = width df).
Proof.
  intros Hs Hw.
  destruct (merge_csv_files_some files output_folder timestamp w df dfs Hs Hw)
    as (w' & Hrun & Hfs).
  eexists w', _, _. split; [exact Hrun|].
  rewrite Hfs, lookup_insert_eq. split; [reflexivity|]. cbn [header].
  rewrite columns_concat_standardized, standardized_columns_length.
  split_and!; [done..|].
  intros Hle. unfold max_width. rewrite fmap_cons. cbn [max_list].
  apply Nat.max_l, max_list_bounded. by apply Forall_fmap.
Qed.

(** C3: merging the one-element list of a non-empty table with k columns,
    when the merged file can be written, writes a table with exactly the k
    columns CH0 .. CH(k-1), whatever the columns were called, over the rows
    as they were read. *)
Theorem merge_single_file_columns file output_folder timestamp w df :
  read_csv file w = (Ok df, w) →
  df_empty df = false →
  can_write (fs w) (merged_filename output_folder timestamp) = true →
  ∃ w' t mtime,
    merge_csv_files [file] output_folder timestamp w
    = (Ok (Some (merged_filename output_folder timestamp)), w') ∧
    fs w' !! merged_filename output_folder timestamp = Some (File (Csv t) mtime) ∧
    header t = (λ i : nat, "CH" +:+ pretty i) <$> seq 0 (length (columns df)) ∧
    length (header t) = length (columns df) ∧
    body t = snd <$> rows df.
Proof.
  intros Hread Hne Hw.
  assert (survivor (fs w) file = Some df) as Hs.
  { unfold read_csv in Hread. unfold survivor.
    injection Hread as ->. by rewrite Hne. }
  assert (survivors (fs w) [file] = [df]) as Hss.
  { unfold survivors. simpl. by rewrite Hs. }
  destruct (merge_csv_files_some [file] output_folder timestamp w df [] Hss Hw)
    as (w' & Hrun & Hfs).
  eexists w', _, _. split; [exact Hrun|].
  rewrite Hfs, lookup_insert_eq. split; [reflexivity|]. cbn [header body].
  pose proof (columns_concat_standardized [df] true) as Hc.
  assert (max_width [df] = length (columns df)) as Hwd.
  { unfold max_width, width. simpl. lia. }
  rewrite Hwd in Hc. rewrite Hc, standardized_columns_length.
  split_and!; [done..|].
  rewrite (cells_concat_standardized [df] true)
    by (rewrite <-Hss; apply survivors_well_formed).
  rewrite bind_singleton, padded_same_width
    by (unfold max_width; simpl; lia).
  by eapply read_csv_typed.
Qed.

(** C4: the frame merge builds, and writes when the merged file can be
    written, stacks the surviving tables in the order given, each with its
    rows in their own order (missing cells added on the right up to the
    merged width, each column then taking one type); its rows are labelled
    0, 1, 2, ... anew; and it has as many rows as the surviving tables have
    in all. *)
Theorem merge_rows_in_order files output_folder timestamp w :
  let kept := survivors (fs w) files in
  kept ≠ [] →
  can_write (fs w) (merged_filename output_folder timestamp) = true →
  ∃ w1 w' merged_df mtime,
    merged_dataframe files w = (Ok (Some merged_df), w1) ∧
    merge_csv_files files output_folder timestamp w
    = (Ok (Some (merged_filename output_folder timestamp)), w') ∧
    fs w' !! merged_filename output_folder timestamp
    = Some (File (csv_of merged_df) mtime) ∧
    snd <$> rows merged_df = upcast_columns (kept ≫= padded (max_width kept)) ∧
    df_index merged_df = Pos <$> seq 0 (df_len merged_df) ∧
    df_len merged_df = sum_list (df_len <$> kept).
Proof.
  intros kept Hne Hw. subst kept.
  destruct (survivors (fs w) files) as [|df dfs] eqn:Hs; [done|].
  destruct (merge_csv_files_some files output_folder timestamp w df dfs Hs Hw)
    as (w' & Hrun & Hfs).
  eexists _, w', (pd_concat (standardize <$> df :: dfs) true), _. split_and!.
  - rewrite merged_dataframe_run, Hs. reflexivity.
  - exact Hrun.
  - rewrite Hfs. apply lookup_insert_eq.
  - apply cells_concat_standardized. rewrite <-Hs. apply survivors_well_formed.
  - apply index_concat_fresh.
  - rewrite length_concat. by rewrite <-list_fmap_compose.
Qed.

(** C5: an empty file in front of a valid file changes neither what merge
    returns nor the files it leaves: both runs write the valid file's rows
    under the positional names; all the empty file adds is the line that
    reports it as skipped. *)
Theorem merge_empty_file_transparent
    empty valid output_folder timestamp w df :
  reads_empty (fs w) empty = true →
  read_csv valid w = (Ok df, w) →
  df_empty df = false →
  can_write (fs w) (merged_filename output_folder timestamp) = true →
  ∃ w1 w2 notice rest t mtime,
    merge_csv_files [empty; valid] output_folder timestamp w
    = (Ok (Some (merged_filename output_folder timestamp)), w1) ∧
    merge_csv_files [valid] output_folder timestamp w
    = (Ok (Some (merged_filename output_folder timestamp)), w2) ∧
    fs w1 = fs w2 ∧ ticks w1 = ticks w2 ∧
    fs w1 !! merged_filename output_folder timestamp
    = Some (File (Csv t) mtime) ∧
    header t = standardized_columns (width df) ∧
    body t = snd <$> rows df ∧
    stdout w2 = stdout w ++ rest ∧
    stdout w1 = stdout w ++ notice :: rest ∧
    (notice = "Skipping empty file: " +:+ empty
     ∨ notice = "No data in " +:+ empty +:+ ", skipping.").
Proof.
  intros He Hread Hne Hw.
  assert (survivor (fs w) valid = Some df) as Hv.
  { unfold read_csv in Hread. unfold survivor.
    injection Hread as ->. by rewrite Hne. }
  assert (survivor (fs w) empty = None) as Hs.
  { unfold survivor. unfold reads_empty in He.
    destruct (parse_csv empty (fs w !! empty)) as [df'|e]; [by rewrite He|done]. }
  assert (survivors (fs w) [valid] = [df]) as Hs2.
  { unfold survivors. simpl. by rewrite Hv. }
  assert (survivors (fs w) [empty; valid] = [df]) as Hs1.
  { unfold survivors. simpl. by rewrite Hs, Hv. }
  assert (merge_notice (fs w) empty = "Skipping empty file: " +:+ empty
          ∨ merge_notice (fs w) empty = "No data in " +:+ empty +:+ ", skipping.")
    as Hnotice.
  { unfold merge_notice. unfold reads_empty in He.
    destruct (parse_csv empty (fs w !! empty)) as [df'|e].
    - rewrite He. by left.
    - destruct e; try done. by right. }
  rewrite !merge_csv_files_run, Hs1, Hs2. cbn zeta.
  rewrite !fmap_cons, !fmap_nil. rewrite !to_csv_writable by done.
  assert (last [empty; valid] = last [valid]) as -> by done.
  eexists _, _, (merge_notice (fs w) empty), _, _, _.
  split_and!; [reflexivity|reflexivity|done|done| | | | | |done].
  - simpl. apply lookup_insert_eq.
  - cbn [header].
    change [standardize df] with (standardize <$> [df]).
    rewrite (columns_concat_standardized [df] true).
    f_equal. unfold max_width. simpl. lia.
  - cbn [body].
    change [standardize df] with (standardize <$> [df]).
    rewrite (cells_concat_standardized [df] true).
    + rewrite bind_singleton, padded_same_width
        by (unfold max_width; simpl; lia).
      by eapply read_csv_typed.
    + rewrite <-Hs2. apply survivors_well_formed.
  - simpl. by rewrite <-!app_assoc.
  - simpl. by rewrite <-!app_assoc.
Qed.

(** C6: when no input survives, merge returns the empty result without
    raising, leaves the file system as it was, and says so on its last
    line. *)
Theorem merge_without_survivor files output_folder timestamp w :
  survivors (fs w) files = [] →
  ∃ w',
    merge_csv_files files output_folder timestamp w = (Ok None, w') ∧
    fs w' = fs w ∧ ticks w' = ticks w ∧
    last (stdout w') = Some "No valid CSV files to merge.".
Proof.
  intros Hs. rewrite merge_csv_files_run, Hs. simpl.
  eexists. split; [reflexivity|]. simpl. split_and!; [done..|].
  apply last_snoc.
Qed.
(** *** Transform dispatch *)

(** C7: with a selector that is none of 1 .. 5, dispatch writes no file and
    raises nothing; it prints one not-implemented line per requested
    channel, in list order. *)
Theorem unsupported_algorithm_is_noop merge_csv_path channels algorithm w :
  ¬ (1 ≤ algorithm ≤ 5) →
  perform_transformation merge_csv_path channels algorithm w
  = (Ok (),
     with_stdout w
       (stdout w ++
        ((λ channel, "Algorithm " +:+ pretty algorithm
                     +:+ " not implemented for " +:+ channel +:+ ".")
         <$> channels))).
Proof.
  intros Halg. unfold perform_transformation.
  assert ((algorithm =? 1) = false) as -> by lia.
  assert ((algorithm =? 2) = false) as -> by lia.
  assert ((algorithm =? 3) = false) as -> by lia.
  assert ((algorithm =? 4) = false) as -> by lia.
  assert ((algorithm =? 5) = false) as -> by lia.
  revert w. induction channels as [|channel channels IH]; intros w; simpl.
  - unfold mret, M_ret, with_stdout. rewrite app_nil_r. by destruct w.
  - unfold mbind, M_bind, print at 1. rewrite IH.
    unfold with_stdout; simpl. by rewrite <-app_assoc.
Qed.

(** C10: when the transform flag is set but the channel list is empty or
    absent, or the selector is zero or absent, the transform step does
    nothing at all: it returns normally and leaves files and output as they
    were.  The directory pipeline and [main] then run exactly as they do
    with the flag cleared. *)
Theorem transform_skipped_without_arguments channels algorithm :
  truthy_channels channels = false ∨ truthy_algorithm algorithm = false →
  (∀ should_merge merged_csv_path csv_files w,
     transform_stage should_merge true channels algorithm
       merged_csv_path csv_files w = (Ok (), w)) ∧
  (∀ folder_path output_folder should_merge now w,
     process_folder folder_path output_folder should_merge true
       channels algorithm now w
     = process_folder folder_path output_folder should_merge false
         channels algorithm now w) ∧
  (∀ path output merge cwd today now w,
     main {| arg_path := path; arg_output := output; arg_merge := merge;
             arg_transform := true; arg_channels := channels;
             arg_algorithm := algorithm |} cwd today now w
     = main {| arg_path := path; arg_output := output; arg_merge := merge;
               arg_transform := false; arg_channels := channels;
               arg_algorithm := algorithm |} cwd today now w).
Proof.
  intros Hfalsy.
  assert (truthy_channels channels && truthy_algorithm algorithm = false) as Hoff.
  { destruct Hfalsy as [-> | ->]; [done|]. apply andb_false_r. }
  assert (∀ should_merge merged_csv_path csv_files,
    transform_stage should_merge true channels algorithm merged_csv_path csv_files
    = transform_stage should_merge false channels algorithm
        merged_csv_path csv_files) as Hstage.
  { intros. unfold transform_stage. simpl. by rewrite Hoff. }
  assert (∀ folder_path output_folder should_merge now w,
    process_folder folder_path output_folder should_merge true
      channels algorithm now w
    = process_folder folder_path output_folder should_merge false
        channels algorithm now w) as Hfolder.
  { intros. unfold process_folder, mbind, M_bind.
    repeat case_match; try done. by rewrite Hstage. }
  split_and!.
  - intros. unfold transform_stage. simpl. by rewrite Hoff.
  - done.
  - intros. unfold main. cbn [arg_path arg_output arg_merge arg_transform
      arg_channels arg_algorithm]. simpl andb. rewrite Hoff.
    unfold mbind, M_bind. repeat case_match; by try apply Hfolder.
Qed.

(** *** Sorting *)

Lemma insert_sorted_Permutation {A} (le : A → A → bool) x l :
  insert_sorted le x l ≡ₚ x :: l.
Proof.
  induction l as [|y l IH]; simpl; [done|].
  destruct (le x y); [done|]. rewrite IH. apply Permutation_swap.
Qed.

Lemma sorted_Permutation {A} (le : A → A → bool) l : sorted le l ≡ₚ l.
Proof.
  induction l as [|x l IH]; simpl; [done|].
  by rewrite insert_sorted_Permutation, IH.
Qed.

Lemma insert_sorted_by_key (x : Z * string) l :
  StronglySorted (λ a b : Z * string, a.1 ≤ b.1) l →
  StronglySorted (λ a b : Z * string, a.1 ≤ b.1)
    (insert_sorted (λ a b, a.1 <=? b.1) x l).
Proof.
  induction 1 as [|y l Hl IH Hy]; simpl.
  - repeat constructor.
  - destruct (Z.leb_spec x.1 y.1) as [Hxy|Hxy].
    + constructor; [by constructor|]. constructor; [done|].
      eapply Forall_impl; [exact Hy|]. intros z Hz. simpl in *. lia.
    + constructor; [done|].
      rewrite insert_sorted_Permutation. constructor; [lia|done].
Qed.

Lemma sorted_by_key l :
  StronglySorted (λ a b : Z * string, a.1 ≤ b.1)
    (sorted (λ a b, a.1 <=? b.1) l).
Proof.
  induction l as [|x l IH]; simpl; [constructor|].
  by apply insert_sorted_by_key.
Qed.

Lemma StronglySorted_fmap_elem_of {A B} (f : A → B)
    (R1 : relation A) (R2 : relation B) (l : list A) :
  (∀ x y, x ∈ l → y ∈ l → R1 x y → R2 (f x) (f y)) →
  StronglySorted R1 l → StronglySorted R2 (f <$> l).
Proof.
  intros Himpl Hsorted. induction Hsorted as [|x l Hl IH Hx]; csimpl.
  - constructor.
  - constructor.
    + apply IH. intros a b Ha Hb. apply Himpl; by apply list_elem_of_further.
    + apply Forall_fmap, Forall_forall. intros y Hy. simpl.
      apply Himpl; [apply list_elem_of_here|by apply list_elem_of_further|].
      rewrite Forall_forall in Hx. by apply Hx.
Qed.

(** *** Conversion and the pool *)

Lemma to_csv_cases df path w :
  to_csv df path w = store path (csv_of df) w
  ∨ ∃ e, to_csv df path w = (Raise e, w).
Proof.
  destruct (can_write (fs w) path) eqn:Hw.
  - left. by apply to_csv_writable.
  - right. by apply to_csv_refused.
Qed.

Lemma convert_tdms_to_csv_run tdms_path output_folder w :
  convert_tdms_to_csv tdms_path output_folder w
  = match decode_tdms tdms_path (fs w !! tdms_path) with
    | Ok df =>
        let csv_path := csv_path_of tdms_path output_folder in
        match to_csv df csv_path w with
        | (Ok _, w1) =>
            (Ok csv_path,
             with_stdout w1
               (stdout w1
                ++ ["Converted " +:+ tdms_path +:+ " to " +:+ csv_path]))
        | (Raise e, w1) => (Raise e, w1)
        end
    | Raise e => (Raise e, w)
    end.
Proof.
  unfold convert_tdms_to_csv, tdms_read_as_dataframe, mbind, M_bind.
  destruct (decode_tdms tdms_path (fs w !! tdms_path)) as [df|e]; [|done].
  fold (csv_path_of tdms_path output_folder).
  by destruct (to_csv _ _ w) as [[u|e] w1].
Qed.

(** A capture the decoder accepts is written as its frame's header and
    cells, with no index column, at [csv_path_of]. *)
Lemma convert_tdms_to_csv_table tdms_path output_folder w t mtime :
  fs w !! tdms_path = Some (File (Tdms t) mtime) →
  can_write (fs w) (csv_path_of tdms_path output_folder) = true →
  ∃ w',
    convert_tdms_to_csv tdms_path output_folder w
    = (Ok (csv_path_of tdms_path output_folder), w') ∧
    fs w' !! csv_path_of tdms_path output_folder
    = Some (File (csv_of (frame_of t)) (clock (ticks w))).
Proof.
  intros Hfile Hw. rewrite convert_tdms_to_csv_run, Hfile. cbn.
  rewrite to_csv_writable by done.
  eexists. split; [reflexivity|]. simpl. apply lookup_insert_eq.
Qed.

(** A conversion leaves a file at the path it returns and removes none. *)
Lemma convert_tdms_to_csv_files tdms_path output_folder w r w' :
  convert_tdms_to_csv tdms_path output_folder w = (r, w') →
  (∀ q, is_Some (fs w !! q) → is_Some (fs w' !! q)) ∧
  (∀ p, r = Ok p → is_Some (fs w' !! p)).
Proof.
  rewrite convert_tdms_to_csv_run.
  destruct (decode_tdms tdms_path (fs w !! tdms_path)) as [df|e].
  - cbn zeta.
    destruct (to_csv_cases df (csv_path_of tdms_path output_folder) w)
      as [->|[e ->]].
    + intros [= <- <-]; simpl. split.
      * intros q Hq. rewrite lookup_insert. by case_decide.
      * intros p [= <-]. by rewrite lookup_insert_eq.
    + intros [= <- <-]. split; [done|]. by intros p [=].
  - intros [= <- <-]. split; [done|]. by intros p [=].
Qed.

Lemma run_pool_files folder_path output_folder tasks acc w futures w' :
  for_in tasks (run_task folder_path output_folder) acc w = (Ok futures, w') →
  (∀ p, Ok p ∈ acc → is_Some (fs w !! p)) →
  ∀ p, Ok p ∈ futures → is_Some (fs w' !! p).
Proof.
  revert acc w. induction tasks as [|task tasks IH]; intros acc w; simpl.
  - by intros [= <- <-].
  - unfold mbind, M_bind. unfold run_task at 1.
    destruct (convert_tdms_to_csv _ _ w) as [r w1] eqn:Hc.
    apply convert_tdms_to_csv_files in Hc as [Hkeep Hnew].
    intros Hrun Hacc. eapply IH; [exact Hrun|].
    intros p Hp. apply elem_of_app in Hp as [Hp|Hp].
    + by apply Hkeep, Hacc.
    + apply list_elem_of_singleton in Hp. by apply Hnew.
Qed.

Lemma collect_results_files futures acc w csv_files w' :
  for_in futures collect_one acc w = (Ok csv_files, w') →
  fs w' = fs w ∧ ∀ p, p ∈ csv_files → p ∈ acc ∨ Ok p ∈ futures.
Proof.
  revert acc w. induction futures as [|future futures IH]; intros acc w; simpl.
  - intros [= <- <-]. auto.
  - unfold mbind, M_bind. unfold collect_one at 1, future_result.
    unfold mbind, M_bind.
    destruct future as [p0|e]; [|done].
    destruct (truthy p0); simpl; intros Hrun; apply IH in Hrun as [Hfs Hin].
    + split; [done|]. intros p Hp. destruct (Hin p Hp) as [Ha|Hf].
      * apply elem_of_app in Ha as [Ha|Ha]; [by left|].
        apply list_elem_of_singleton in Ha as ->. right. apply list_elem_of_here.
      * right. by apply list_elem_of_further.
    + split; [done|]. intros p Hp. destruct (Hin p Hp) as [Ha|Hf]; [by left|].
      right. by apply list_elem_of_further.
Qed.

(** The collecting loop has no handler: the first failed future met in
    completion order ends it with that future's exception. *)
Lemma collect_results_reraises futures acc w e :
  Raise e ∈ futures →
  ∃ e' w', for_in futures collect_one acc w = (Raise e', w').
Proof.
  revert acc w. induction futures as [|future futures IH]; intros acc w Hin.
  - by apply elem_of_nil in Hin.
  - simpl. unfold mbind, M_bind. unfold collect_one at 1, future_result.
    unfold mbind, M_bind.
    destruct future as [p|e0]; [|by eauto].
    apply elem_of_cons in Hin as [[=]|Hin].
    destruct (truthy p); simpl; by apply IH.
Qed.

Lemma keyed_by_mtime paths acc w :
  Forall (λ p, is_Some (fs w !! p)) paths →
  for_in paths with_mtime acc w
  = (Ok (acc ++ ((λ p, (mtime_of w p, p)) <$> paths)), w).
Proof.
  intros Hall. revert acc. induction Hall as [|p paths [n Hn] _ IH]; intros acc.
  - simpl. by rewrite app_nil_r.
  - simpl. unfold mbind, M_bind. unfold with_mtime at 1, getmtime.
    unfold mbind, M_bind, mtime_of. rewrite Hn.
    destruct n as [c t|t]; simpl; rewrite IH; by rewrite <-app_assoc.
Qed.

Lemma sorted_by_mtime_run paths w :
  Forall (λ p, is_Some (fs w !! p)) paths →
  sorted_by_mtime paths w
  = (Ok (snd <$> sorted (λ a b : Z * string, a.1 <=? b.1)
                   ((λ p, (mtime_of w p, p)) <$> paths)), w).
Proof.
  intros Hall. unfold sorted_by_mtime.
  by erewrite bind_run by by apply keyed_by_mtime.
Qed.

(** C8: in directory mode with merge requested, once the conversions have
    been collected and there is at least one, merge is called on the
    collected paths rearranged in ascending order of modification time. *)
Theorem merge_input_sorted_by_mtime
    folder_path output_folder transform channels algorithm now
    w names w1 futures w2 csv_files w3 :
  listdir folder_path w = (Ok names, w1) →
  run_pool folder_path output_folder
    (completion_order (submitted_names names)) w1 = (Ok futures, w2) →
  collect_results futures w2 = (Ok csv_files, w3) →
  csv_files ≠ [] →
  ∃ csv_files_sorted,
    csv_files_sorted ≡ₚ csv_files ∧
    StronglySorted (λ x y, mtime_of w3 x ≤ mtime_of w3 y) csv_files_sorted ∧
    process_folder folder_path output_folder true transform
      channels algorithm now w
    = (merged_csv_path ← merge_csv_files csv_files_sorted output_folder now;
       transform_stage true transform channels algorithm
         merged_csv_path csv_files) w3.
Proof.
  intros Hlist Hpool Hcollect Hne.
  set (keyed := (λ p, (mtime_of w3 p, p)) <$> csv_files).
  exists (snd <$> sorted (λ a b : Z * string, a.1 <=? b.1) keyed).
  assert (Forall (λ p, is_Some (fs w3 !! p)) csv_files) as Hexist.
  { apply Forall_forall. intros p Hp.
    apply collect_results_files in Hcollect as [-> Hin].
    destruct (Hin p Hp) as [Ha|Hf]; [by apply elem_of_nil in Ha|].
    eapply run_pool_files; [exact Hpool| |exact Hf].
    intros q Hq. by apply elem_of_nil in Hq. }
  split_and!.
  - rewrite sorted_Permutation. unfold keyed.
    rewrite <-list_fmap_compose. by rewrite list_fmap_id.
  - eapply StronglySorted_fmap_elem_of; [|apply sorted_by_key].
    intros a b Ha Hb Hab.
    assert (∀ c, c ∈ keyed → c.1 = mtime_of w3 c.2) as Hkey.
    { intros c Hc. unfold keyed in Hc.
      by apply list_elem_of_fmap in Hc as (q & -> & _). }
    rewrite sorted_Permutation in Ha, Hb.
    by rewrite <-(Hkey a Ha), <-(Hkey b Hb).
  - unfold process_folder.
    erewrite bind_run by exact Hlist.
    erewrite bind_run by exact Hpool.
    erewrite bind_run by exact Hcollect.
    unfold merge_stage. rewrite bool_decide_true by done. simpl andb. cbv iota.
    rewrite bind_assoc_run.
    by erewrite bind_run by by apply sorted_by_mtime_run.
Qed.

(** *** Strings and file names *)

Lemma string_app_empty_r (s : string) : s +:+ EmptyString = s.
Proof. induction s as [|c s IH]; simpl; [done|]. unfold String.app in *. simpl. by rewrite IH. Qed.

Lemma string_app_cons (c : ascii) (s t : string) :
  String c s +:+ t = String c (s +:+ t).
Proof. done. Qed.

Lemma prefix_cons c o d s :
  String.prefix (String c o) (String d s)
  = if ascii_dec c d then String.prefix o s else false.
Proof. done. Qed.

Lemma prefix_empty s : String.prefix EmptyString s = true.
Proof. by destruct s. Qed.

Lemma prefix_refl (s : string) : String.prefix s s = true.
Proof.
  induction s as [|c s IH]; simpl; [done|].
  by destruct (ascii_dec c c).
Qed.

Lemma replace_go_skip_all old new k s :
  (String.length s ≤ k)%nat → replace_go old new k s = EmptyString.
Proof.
  revert k. induction s as [|c s IH]; intros k Hk; simpl in *; [done|].
  destruct k as [|k]; [lia|]. apply IH. lia.
Qed.

(** Replacing an extension: when the first character of [old] occurs
    nowhere in [stem], the one occurrence of [old] is the suffix. *)
Lemma replace_suffix c o new stem :
  c ∉ chars stem →
  replace (String c o) new (stem +:+ String c o) = stem +:+ new.
Proof.
  unfold replace. induction stem as [|d stem IH]; intros Hc.
  - change (EmptyString +:+ String c o) with (String c o).
    change (EmptyString +:+ new) with new.
    cbn [replace_go]. rewrite prefix_refl.
    rewrite replace_go_skip_all by (simpl; lia).
    apply string_app_empty_r.
  - rewrite !string_app_cons. cbn [replace_go].
    assert (String.prefix (String c o) (String d (stem +:+ String c o)) = false)
      as ->.
    { simpl. destruct (ascii_dec c d) as [->|]; [|done].
      exfalso. apply Hc. apply list_elem_of_here. }
    f_equal. apply IH. intros Hin. apply Hc. by apply list_elem_of_further.
Qed.

Lemma sanitize_filename_cons c s :
  sanitize_filename (String c s)
  = if Ascii.eqb c " " then sanitize_filename s
    else String c (sanitize_filename s).
Proof.
  unfold sanitize_filename, replace. cbn [replace_go String.length Nat.sub].
  rewrite prefix_cons, prefix_empty.
  destruct (ascii_dec " " c) as [<-|Hne]; [done|].
  destruct (Ascii.eqb_spec c " ") as [->|_]; done.
Qed.

Lemma sanitize_filename_app s t :
  sanitize_filename (s +:+ t) = sanitize_filename s +:+ sanitize_filename t.
Proof.
  induction s as [|c s IH]; [done|].
  rewrite string_app_cons, !sanitize_filename_cons, IH.
  by destruct (Ascii.eqb c " ").
Qed.

Lemma sanitize_filename_chars s :
  chars (sanitize_filename s) = filter (λ c, c ≠ " "%char) (chars s).
Proof.
  induction s as [|c s IH]; [done|].
  rewrite sanitize_filename_cons. cbn [chars String.list_ascii_of_string].
  destruct (Ascii.eqb_spec c " ") as [->|Hne].
  - by rewrite filter_cons_False by (by intros []).
  - rewrite filter_cons_True by done. cbn. by f_equal.
Qed.

Lemma sanitize_filename_fixed s :
  " "%char ∉ chars s → sanitize_filename s = s.
Proof.
  induction s as [|c s IH]; intros Hs; [done|].
  rewrite sanitize_filename_cons.
  destruct (Ascii.eqb_spec c " ") as [->|Hne].
  - exfalso. apply Hs. apply list_elem_of_here.
  - f_equal. apply IH. intros Hin. apply Hs. by apply list_elem_of_further.
Qed.

(** X1: [sanitize_filename] keeps every character that is not a space, in
    order, and drops every space; so its result holds no space and applying
    it again changes nothing. *)
Theorem sanitize_filename_drops_exactly_spaces s :
  chars (sanitize_filename s) = filter (λ c, c ≠ " "%char) (chars s) ∧
  (" "%char ∉ chars (sanitize_filename s)) ∧
  sanitize_filename (sanitize_filename s) = sanitize_filename s.
Proof.
  assert (" "%char ∉ chars (sanitize_filename s)) as Hno.
  { rewrite sanitize_filename_chars. intros Hin.
    by apply list_elem_of_filter in Hin as [Hne _]. }
  split_and!; [apply sanitize_filename_chars|done|].
  by apply sanitize_filename_fixed.
Qed.

(** *** Conversion of one capture *)

Lemma csv_path_of_lower_case tdms_path output_folder stem :
  basename tdms_path = stem +:+ ".tdms" →
  "."%char ∉ chars stem →
  csv_path_of tdms_path output_folder
  = path_join output_folder (sanitize_filename stem +:+ ".csv").
Proof.
  intros Hbase Hdot. unfold csv_path_of. rewrite Hbase. f_equal.
  rewrite sanitize_filename_app.
  change (sanitize_filename ".tdms") with ".tdms".
  apply (replace_suffix "." "tdms" ".csv").
  rewrite sanitize_filename_chars. intros Hin.
  by apply list_elem_of_filter in Hin as [_ Hin].
Qed.

Lemma csv_of_frame_of t :
  csv_of (frame_of t)
  = Csv {| header := header t;
           body := upcast_columns (resize (length (header t)) NaN <$> body t) |}.
Proof.
  unfold csv_of, frame_of. cbn [rows columns]. do 2 f_equal.
  apply snd_zip.
  by rewrite upcast_columns_length, !length_fmap, length_seq.
Qed.

(** X2: a capture whose base name is [stem.tdms], in lower case and with no
    other dot, is converted to the file [stem.csv] of the output folder,
    [stem] without its spaces, when that file can be written. *)
Theorem convert_lower_case_capture_name
    tdms_path output_folder stem w t mtime :
  basename tdms_path = stem +:+ ".tdms" →
  "."%char ∉ chars stem →
  fs w !! tdms_path = Some (File (Tdms t) mtime) →
  can_write (fs w)
    (path_join output_folder (sanitize_filename stem +:+ ".csv")) = true →
  ∃ w',
    convert_tdms_to_csv tdms_path output_folder w
    = (Ok (path_join output_folder (sanitize_filename stem +:+ ".csv")), w') ∧
    fs w' !! path_join output_folder (sanitize_filename stem +:+ ".csv")
    = Some (File (csv_of (frame_of t)) (clock (ticks w))).
Proof.
  intros Hbase Hdot Hfile.
  rewrite <-(csv_path_of_lower_case tdms_path output_folder stem) by done.
  intros Hw. by eapply convert_tdms_to_csv_table.
Qed.

(** X3: converting a capture the decoder accepts, when the derived path can
    be written, writes there the capture's header and its samples, every
    channel as long as the header is wide and typed as one column, with no
    index column; it changes no other file, prints one progress line and
    returns the path written. *)
Theorem convert_writes_decoded_table tdms_path output_folder w t mtime :
  fs w !! tdms_path = Some (File (Tdms t) mtime) →
  let csv_path := csv_path_of tdms_path output_folder in
  can_write (fs w) csv_path = true →
  convert_tdms_to_csv tdms_path output_folder w
  = (Ok csv_path,
     {| fs := <[csv_path :=
                  File (Csv {| header := header t;
                               body := upcast_columns
                                 (resize (length (header t)) NaN <$> body t) |})
                       (clock (ticks w))]> (fs w);
        stdout := stdout w
          ++ ["Converted " +:+ tdms_path +:+ " to " +:+ csv_path];
        ticks := S (ticks w) |}).
Proof.
  intros Hfile csv_path Hw. rewrite convert_tdms_to_csv_run, Hfile. cbn.
  fold csv_path. rewrite to_csv_writable by done.
  unfold store, with_stdout. cbn. by rewrite csv_of_frame_of.
Qed.


(** What [to_csv] raises on a path that cannot be written. *)
Lemma to_csv_refused_exn df path w :
  can_write (fs w) path = false →
  ∃ e,
    to_csv df path w = (Raise e, w) ∧
    (e = OSError ("Cannot save file into a non-existent directory: '"
                  +:+ parent path +:+ "'")
     ∨ e = IsADirectoryError path).
Proof.
  unfold can_write, to_csv, write_file.
  destruct (fs w !! parent path) as [[c mt|mt]|]; eauto.
  destruct (fs w !! path) as [[c' mt'|mt']|]; eauto; done.
Qed.

(** X21: a file of zero bytes is a capture without channels: when the
    derived path can be written, the conversion succeeds, prints its
    progress line and writes a table without header or rows, which the
    merge will later skip as holding no data. *)
Theorem convert_empty_capture_writes_empty_table
    tdms_path output_folder w mtime :
  fs w !! tdms_path = Some (File Blank mtime) →
  let csv_path := csv_path_of tdms_path output_folder in
  can_write (fs w) csv_path = true →
  ∃ w',
    convert_tdms_to_csv tdms_path output_folder w = (Ok csv_path, w') ∧
    fs w' = <[csv_path := File (Csv {| header := []; body := [] |})
                            (clock (ticks w))]> (fs w) ∧
    stdout w' = stdout w ++ ["Converted " +:+ tdms_path +:+ " to " +:+ csv_path] ∧
    parse_csv csv_path (fs w' !! csv_path) = Raise EmptyDataError.
Proof.
  intros Hfile csv_path Hw. rewrite convert_tdms_to_csv_run, Hfile.
  cbn [decode_tdms]. cbn zeta. fold csv_path.
  rewrite to_csv_writable by done.
  eexists. split; [reflexivity|]. cbn. split_and!; [done..|].
  by rewrite lookup_insert_eq.
Qed.

(** X22: when the derived path cannot be written (the output folder is
    missing or a regular file, or the path is a directory), the conversion
    of a capture the decoder accepts raises and leaves the world as it was:
    nothing is written and no progress line is printed. *)
Theorem convert_unwritable_output_raises tdms_path output_folder w t mtime :
  fs w !! tdms_path = Some (File (Tdms t) mtime) →
  let csv_path := csv_path_of tdms_path output_folder in
  can_write (fs w) csv_path = false →
  ∃ e,
    convert_tdms_to_csv tdms_path output_folder w = (Raise e, w) ∧
    (e = OSError ("Cannot save file into a non-existent directory: '"
                  +:+ parent csv_path +:+ "'")
     ∨ e = IsADirectoryError csv_path).
Proof.
  intros Hfile csv_path Hw. rewrite convert_tdms_to_csv_run, Hfile.
  cbn [decode_tdms]. cbn zeta. fold csv_path.
  destruct (to_csv_refused_exn (frame_of t) csv_path w Hw) as (e & -> & He).
  by exists e.
Qed.
(** *** More on merge *)

(** X5: merge changes no file other than the one it writes; in particular
    its inputs stay as they were. *)
Theorem merge_touches_only_its_output files output_folder timestamp w path :
  path ≠ merged_filename output_folder timestamp →
  fs (merge_csv_files files output_folder timestamp w).2 !! path = fs w !! path.
Proof.
  intros Hne. rewrite merge_csv_files_run. cbn zeta.
  destruct (standardize <$> survivors (fs w) files) as [|df dfs]; simpl; [done|].
  match goal with
  | |- context [to_csv ?d ?p ?w1] =>
      destruct (to_csv_cases d p w1) as [->|[e ->]]
  end; simpl; [|done].
  by rewrite lookup_insert_ne.
Qed.

Lemma to_csv_same_files df path w w' :
  fs w = fs w' → ticks w = ticks w' →
  (to_csv df path w).1 = (to_csv df path w').1 ∧
  fs (to_csv df path w).2 = fs (to_csv df path w').2.
Proof.
  intros Hfs Hticks. unfold to_csv, write_file, store. rewrite Hfs, Hticks.
  destruct (fs w' !! parent path) as [[c mt|mt]|]; try done.
  by destruct (fs w' !! path) as [[c' mt'|mt']|].
Qed.

(** X6: what merge returns and the files it leaves depend on the list of
    inputs only through the tables that survive: inputs that are skipped,
    wherever they stand in the list, make no difference. *)
Theorem merge_depends_on_survivors files1 files2 output_folder timestamp w :
  survivors (fs w) files1 = survivors (fs w) files2 →
  (merge_csv_files files1 output_folder timestamp w).1
  = (merge_csv_files files2 output_folder timestamp w).1 ∧
  fs (merge_csv_files files1 output_folder timestamp w).2
  = fs (merge_csv_files files2 output_folder timestamp w).2.
Proof.
  intros Heq. rewrite !merge_csv_files_run, Heq. cbn zeta.
  destruct (standardize <$> survivors (fs w) files2) as [|df dfs]; [done|].
  match goal with
  | |- context [(match to_csv ?d ?p ?w1 with _ => _ end).1
                = (match to_csv ?d ?p ?w2 with _ => _ end).1] =>
      destruct (to_csv_same_files d p w1 w2) as [Hr Hf]; [done..|];
      destruct (to_csv d p w1) as [[u1|e1] w1'];
      destruct (to_csv d p w2) as [[u2|e2] w2']
  end; simpl in *; try done.
  by injection Hr as ->.
Qed.

(** X7: when the surviving tables all have the same number k of columns and
    the merged file can be written, the merged table has the columns
    CH0 .. CH(k-1) and its rows are the tables' rows one after the other:
    no missing cell is added, and a cell changes only by its column taking
    one type. *)
Theorem merge_same_width_is_lossless files output_folder timestamp w df dfs :
  survivors (fs w) files = df :: dfs →
  Forall (λ d, width d = width df) dfs →
  can_write (fs w) (merged_filename output_folder timestamp) = true →
  fs (merge_csv_files files output_folder timestamp w).2
     !! merged_filename output_folder timestamp
  = Some (File (Csv {| header := standardized_columns (width df);
                       body := upcast_columns
                                 ((df :: dfs) ≫= (λ d, snd <$> rows d)) |})
               (clock (ticks w))).
Proof.
  intros Hs Hsame Hw.
  destruct (merge_csv_files_some files output_folder timestamp w df dfs Hs Hw)
    as (w' & Hrun & Hfs).
  rewrite Hrun. cbn [snd]. rewrite Hfs, lookup_insert_eq. do 2 f_equal.
  unfold csv_of. f_equal.
  assert (max_width (df :: dfs) = width df) as Hwd.
  { unfold max_width. rewrite fmap_cons. cbn [max_list].
    apply Nat.max_l, max_list_bounded, Forall_fmap.
    eapply Forall_impl; [exact Hsame|]. simpl. intros d ->. done. }
  f_equal.
  - by rewrite columns_concat_standardized, Hwd.
  - rewrite cells_concat_standardized
      by (rewrite <-Hs; apply survivors_well_formed).
    rewrite Hwd. f_equal. apply Forall_bind_ext, Forall_cons. split.
    + by apply padded_same_width.
    + eapply Forall_impl; [exact Hsame|]. intros d Hd.
      by apply padded_same_width.
Qed.

Lemma merged_table_shape m files df dfs b :
  survivors m files = df :: dfs →
  csv_of (pd_concat (standardize <$> df :: dfs) b)
  = Csv {| header := standardized_columns (max_width (df :: dfs));
           body := upcast_columns
                     ((df :: dfs) ≫= padded (max_width (df :: dfs))) |}.
Proof.
  intros Hs. unfold csv_of.
  rewrite columns_concat_standardized.
  by rewrite cells_concat_standardized
    by (rewrite <-Hs; apply survivors_well_formed).
Qed.





(** *** The transform routines *)

Lemma perform_transformation_cons csv_file channel channels algorithm
    r suffix msg w :
  supported algorithm = Some (r, suffix, msg) →
  perform_transformation csv_file (channel :: channels) algorithm w
  = ((render r suffix csv_file channel;;
      print (msg +:+ " completed for " +:+ channel +:+ ". Image saved."));;
     perform_transformation csv_file channels algorithm) w.
Proof.
  unfold supported, perform_transformation. cbn [for_in].
  unfold mel_spectrogram_transform, stft_transform, cwt_transform,
    wigner_ville_distribution, s_transform.
  destruct (Z.eqb_spec algorithm 1);
    [intros [= <- <- <-]; unfold mbind, M_bind, print;
     by destruct (render _ _ _ _ w) as [[u|e'] w1]|].
  destruct (Z.eqb_spec algorithm 2);
    [intros [= <- <- <-]; unfold mbind, M_bind, print;
     by destruct (render _ _ _ _ w) as [[u|e'] w1]|].
  destruct (Z.eqb_spec algorithm 3);
    [intros [= <- <- <-]; unfold mbind, M_bind, print;
     by destruct (render _ _ _ _ w) as [[u|e'] w1]|].
  destruct (Z.eqb_spec algorithm 4);
    [intros [= <- <- <-]; unfold mbind, M_bind, print;
     by destruct (render _ _ _ _ w) as [[u|e'] w1]|].
  destruct (Z.eqb_spec algorithm 5);
    [intros [= <- <- <-]; unfold mbind, M_bind, print;
     by destruct (render _ _ _ _ w) as [[u|e'] w1]|].
  done.
Qed.

Lemma write_file_writable path c w :
  can_write (fs w) path = true →
  write_file path c w = store path c w.
Proof.
  unfold can_write, write_file.
  destruct (fs w !! parent path) as [[c0 mt|mt]|]; try done.
  by destruct (fs w !! path) as [[c' mt'|mt']|].
Qed.

Lemma render_run r suffix csv_file channel w df data img :
  read_csv csv_file w = (Ok df, w) →
  column_values df channel w = (Ok data, w) →
  spectral r data = Ok img →
  render r suffix csv_file channel w
  = savefig (replace ".csv" ("_" +:+ channel +:+ suffix) csv_file) r img w.
Proof.
  intros Hread Hcol Himg. unfold render.
  erewrite bind_run by exact Hread.
  erewrite bind_run by exact Hcol.
  unfold mbind, M_bind. by rewrite Himg.
Qed.

Lemma column_values_missing df channel w :
  channel ∉ columns df →
  column_values df channel w = (Raise (KeyError channel), w).
Proof.
  intros Hno. unfold column_values.
  assert (list_find (λ c, c = channel) (columns df) = None) as ->; [|done].
  apply list_find_None, Forall_forall. by intros c Hc ->.
Qed.

Lemma string_app_assoc (s t u : string) : (s +:+ t) +:+ u = s +:+ t +:+ u.
Proof. induction s as [|c s IH]; [done|]. rewrite !string_app_cons. by f_equal. Qed.

Lemma rev_app_app a x y : String.rev_app a x +:+ y = String.rev_app a (x +:+ y).
Proof. revert x. induction a as [|c a IH]; intros x; simpl; [done|]. by rewrite IH. Qed.

Lemma rev_app_of_app s t acc :
  String.rev_app (s +:+ t) acc = String.rev_app t (String.rev_app s acc).
Proof.
  revert acc. induction s as [|c s IH]; intros acc; [done|].
  rewrite string_app_cons. simpl. apply IH.
Qed.

Lemma basename_go_app acc s t :
  "/"%char ∉ chars t →
  basename_go acc (s +:+ t) = basename_go acc s +:+ t.
Proof.
  intros Ht. revert acc. induction s as [|c s IH]; intros acc.
  - change (EmptyString +:+ t) with t. simpl.
    revert acc. induction t as [|c t IHt]; intros acc; simpl.
    + by rewrite string_app_empty_r.
    + destruct (Ascii.eqb_spec c "/") as [->|Hc].
      { exfalso. apply Ht. apply list_elem_of_here. }
      rewrite IHt by (intros Hin; apply Ht; by apply list_elem_of_further).
      unfold String.rev. simpl. by rewrite !rev_app_app.
  - rewrite string_app_cons. simpl. by destruct (Ascii.eqb c "/").
Qed.

Lemma lstrip_char_app x s c t :
  c ≠ x →
  lstrip_char x (s +:+ String c t) = lstrip_char x s +:+ String c t.
Proof.
  intros Hc. induction s as [|d s IH].
  - change (EmptyString +:+ String c t) with (String c t). simpl.
    by destruct (Ascii.eqb_spec c x).
  - rewrite string_app_cons. simpl. by destruct (Ascii.eqb d x).
Qed.

Ltac no_such_char :=
  let Hin := fresh "Hin" in
  intros Hin;
  repeat (apply elem_of_cons in Hin as [Hin|Hin]; [discriminate|]);
  by apply elem_of_nil in Hin.

(** The names the routines save under are never refused: whatever comes
    first, they end in [.png]. *)
Lemma savefig_target_supported algorithm r suffix msg s :
  supported algorithm = Some (r, suffix, msg) →
  savefig_target (s +:+ suffix) = Ok (s +:+ suffix).
Proof.
  intros Hsup.
  assert (extension (s +:+ suffix) = "png") as Hext.
  { unfold extension, basename.
    unfold supported in Hsup.
    repeat (destruct (_ =? _) in Hsup;
            [injection Hsup as <- <- <-;
             rewrite basename_go_app by (vm_compute; no_such_char);
             rewrite lstrip_char_app by done;
             unfold String.rev at 1; by rewrite rev_app_of_app|]).
    done. }
  unfold savefig_target. rewrite Hext. done.
Qed.

(** X9: for a selector among 1 .. 5, a table [stem.csv] (no other dot in
    the path) and a channel of that table on which the numeric routine
    succeeds, when [stem_channel_tag.png] names a file that can be written
    (its directory exists, which a channel name with a slash can prevent),
    dispatch saves the image of the selector's routine there, prints the
    routine's progress line, and changes nothing else. *)
Theorem transform_writes_image
    algorithm r suffix msg stem channel w df data img :
  let target := stem +:+ "_" +:+ channel +:+ suffix in
  supported algorithm = Some (r, suffix, msg) →
  "."%char ∉ chars stem →
  read_csv (stem +:+ ".csv") w = (Ok df, w) →
  column_values df channel w = (Ok data, w) →
  spectral r data = Ok img →
  can_write (fs w) target = true →
  perform_transformation (stem +:+ ".csv") [channel] algorithm w
  = (Ok (),
     {| fs := <[target := File (Png r img) (clock (ticks w))]> (fs w);
        stdout := stdout w
          ++ [msg +:+ " completed for " +:+ channel +:+ ". Image saved."];
        ticks := S (ticks w) |}).
Proof.
  intros target Hsup Hdot Hread Hcol Himg Hw.
  erewrite perform_transformation_cons by exact Hsup.
  unfold mbind at 1 2. unfold M_bind at 1 2.
  erewrite render_run by done.
  rewrite (replace_suffix "." "csv") by done.
  unfold savefig. fold target.
  assert (savefig_target target = Ok target) as ->.
  { unfold target. rewrite <-!string_app_assoc.
    by eapply savefig_target_supported. }
  rewrite write_file_writable by done.
  done.
Qed.

(** X10: for a selector among 1 .. 5, a channel that is not a column of the
    table stops the dispatch with a key error: no image is written, nothing
    is printed, and the channels after it are not processed. *)
Theorem transform_missing_channel_aborts
    algorithm entry csv_file channel channels w df :
  supported algorithm = Some entry →
  read_csv csv_file w = (Ok df, w) →
  channel ∉ columns df →
  perform_transformation csv_file (channel :: channels) algorithm w
  = (Raise (KeyError channel), w).
Proof.
  intros Hsup Hread Hno. destruct entry as [[r suffix] msg].
  erewrite perform_transformation_cons by exact Hsup.
  unfold mbind at 1 2. unfold M_bind at 1 2. unfold render.
  erewrite bind_run by exact Hread.
  unfold mbind, M_bind. by rewrite column_values_missing.
Qed.

(** *** Directory scan and ordering *)

Lemma insert_sorted_names x l :
  StronglySorted String.le l →
  StronglySorted String.le (insert_sorted String.leb x l).
Proof.
  induction 1 as [|y l Hl IH Hy]; simpl.
  - repeat constructor.
  - destruct (String.leb x y) eqn:Hxy.
    + constructor; [by constructor|]. constructor.
      * unfold String.le. by rewrite Hxy.
      * eapply Forall_impl; [exact Hy|]. intros z Hz.
        transitivity y; [|done]. unfold String.le. by rewrite Hxy.
    + constructor; [done|].
      rewrite insert_sorted_Permutation. constructor; [|done].
      destruct (total String.le x y) as [Hle|Hle]; [|done].
      unfold String.le in Hle. by rewrite Hxy in Hle.
Qed.

Lemma sorted_names l : StronglySorted String.le (sorted String.leb l).
Proof.
  induction l as [|x l IH]; simpl; [constructor|].
  by apply insert_sorted_names.
Qed.

Lemma StronglySorted_filter {A} (R : relation A) (P : A → Prop)
    `{!∀ x, Decision (P x)} (l : list A) :
  StronglySorted R l → StronglySorted R (filter P l).
Proof.
  induction 1 as [|x l Hl IH Hx]; [constructor|].
  rewrite filter_cons. case_decide; [|done].
  constructor; [done|]. apply Forall_forall. intros y Hy.
  apply list_elem_of_filter in Hy as [_ Hy].
  rewrite Forall_forall in Hx. by apply Hx.
Qed.

(** X11: the names submitted to the pool are exactly the entries of the
    folder whose name ends in [.tdms] whatever the case of its letters, each
    as often as it is listed, and they are submitted in ascending
    lexicographic order. *)
Theorem submitted_names_sorted_accepted names :
  submitted_names names
  ≡ₚ filter (λ filename, endswith (lower filename) ".tdms") names ∧
  StronglySorted String.le (submitted_names names).
Proof.
  unfold submitted_names. split.
  - by rewrite sorted_Permutation.
  - apply StronglySorted_filter, sorted_names.
Qed.

Lemma filter_key_insert_sorted (t : Z) (x : Z * string) l :
  filter (λ a : Z * string, a.1 = t) (insert_sorted (λ a b, a.1 <=? b.1) x l)
  = filter (λ a : Z * string, a.1 = t) (x :: l).
Proof.
  induction l as [|y l IH]; [done|]. simpl.
  destruct (Z.leb_spec x.1 y.1) as [Hxy|Hxy]; [done|].
  rewrite (filter_cons _ y), IH, !(filter_cons _ x), (filter_cons _ y).
  repeat case_decide; try done. lia.
Qed.

Lemma filter_key_sorted (t : Z) l :
  filter (λ a : Z * string, a.1 = t) (sorted (λ a b, a.1 <=? b.1) l)
  = filter (λ a : Z * string, a.1 = t) l.
Proof.
  induction l as [|x l IH]; [done|]. simpl.
  by rewrite filter_key_insert_sorted, !filter_cons, IH.
Qed.

Lemma filter_fmap_elem_of {A B} (f : A → B) (P : B → Prop) (Q : A → Prop)
    `{!∀ x, Decision (P x)} `{!∀ x, Decision (Q x)} (l : list A) :
  (∀ x, x ∈ l → P (f x) ↔ Q x) →
  filter P (f <$> l) = f <$> filter Q l.
Proof.
  induction l as [|x l IH]; intros Hpq; [done|].
  rewrite fmap_cons, !filter_cons.
  rewrite IH by (intros y Hy; apply Hpq; by apply list_elem_of_further).
  pose proof (Hpq x (list_elem_of_here _ _)) as Hx.
  repeat case_decide; try done; tauto.
Qed.

(** X12: ordering the converted files by modification time succeeds when
    every one of them exists; the result is in ascending order of
    modification time, and the ordering is stable: files with the same
    modification time keep the order in which they were collected. *)
Theorem sorted_by_mtime_is_stable paths w :
  Forall (λ p, is_Some (fs w !! p)) paths →
  ∃ csv_files_sorted,
    sorted_by_mtime paths w = (Ok csv_files_sorted, w) ∧
    StronglySorted (λ x y, mtime_of w x ≤ mtime_of w y) csv_files_sorted ∧
    ∀ t, filter (λ p, mtime_of w p = t) csv_files_sorted
         = filter (λ p, mtime_of w p = t) paths.
Proof.
  intros Hall. eexists. split; [by apply sorted_by_mtime_run|].
  set (keyed := (λ p, (mtime_of w p, p)) <$> paths).
  split.
  - eapply StronglySorted_fmap_elem_of; [|apply sorted_by_key].
    intros a b Ha Hb Hab.
    assert (∀ c, c ∈ keyed → c.1 = mtime_of w c.2) as Hkey.
    { intros c Hc. unfold keyed in Hc.
      by apply list_elem_of_fmap in Hc as (q & -> & _). }
    rewrite sorted_Permutation in Ha, Hb.
    by rewrite <-(Hkey a Ha), <-(Hkey b Hb).
  - intros t.
    rewrite (filter_fmap_elem_of snd _ (λ a : Z * string, a.1 = t)).
    + rewrite filter_key_sorted. unfold keyed.
      rewrite (filter_fmap_elem_of (λ p, (mtime_of w p, p))
                 (λ a : Z * string, a.1 = t) (λ p, mtime_of w p = t))
        by done.
      rewrite <-list_fmap_compose. by rewrite list_fmap_id.
    + intros a Ha. rewrite sorted_Permutation in Ha. unfold keyed in Ha.
      by apply list_elem_of_fmap in Ha as (p & -> & _).
Qed.
(** *** The pool and the collecting loop *)

Lemma for_in_app {A S} (l1 l2 : list A) (body : A → S → M S) (s : S) w :
  for_in (l1 ++ l2) body s w = (for_in l1 body s ≫= for_in l2 body) w.
Proof.
  revert s w. induction l1 as [|x l1 IH]; intros s w; [done|].
  simpl. rewrite bind_assoc_run. unfold mbind, M_bind.
  destruct (body x s w) as [[s'|e] w']; [|done]. apply IH.
Qed.

Lemma collect_loop_ok paths acc w :
  for_in (Ok <$> paths) collect_one acc w
  = (Ok (acc ++ filter (λ p, truthy p = true) paths),
     with_stdout w
       (stdout w ++ ((λ p, "Converted: " +:+ p)
                     <$> filter (λ p, truthy p = true) paths))).
Proof.
  revert acc w. induction paths as [|p paths IH]; intros acc w.
  - simpl. unfold mret, M_ret, with_stdout. rewrite !app_nil_r. by destruct w.
  - rewrite fmap_cons. cbn [for_in]. unfold mbind, M_bind.
    unfold collect_one at 1, future_result. unfold mbind, M_bind.
    rewrite filter_cons. destruct (truthy p) eqn:Hp.
    + rewrite decide_True by done. unfold print, mret, M_ret.
      rewrite IH. unfold with_stdout. simpl. by rewrite <-!app_assoc.
    + rewrite decide_False by done. unfold mret, M_ret. by rewrite IH.
Qed.

(** X13: when every task has succeeded, the collecting loop returns the
    paths in completion order, leaving out an empty path, and prints one
    line for each path it keeps; it changes no file. *)
Theorem collect_results_keeps_completion_order paths w :
  collect_results (Ok <$> paths) w
  = (Ok (filter (λ p, truthy p = true) paths),
     with_stdout w
       (stdout w ++ ((λ p, "Converted: " +:+ p)
                     <$> filter (λ p, truthy p = true) paths))).
Proof. unfold collect_results. by rewrite collect_loop_ok. Qed.

(** X14: the collecting loop stops at the first failed task in completion
    order and raises that task's exception: the paths collected before it
    have been printed but are not returned, and the tasks after it are not
    looked at. *)
Theorem collect_results_raises_first_failure paths e rest w :
  collect_results ((Ok <$> paths) ++ Raise e :: rest) w
  = (Raise e,
     with_stdout w
       (stdout w ++ ((λ p, "Converted: " +:+ p)
                     <$> filter (λ p, truthy p = true) paths))).
Proof.
  unfold collect_results. rewrite for_in_app.
  erewrite bind_run by apply collect_loop_ok.
  cbn [for_in]. unfold mbind, M_bind. by unfold collect_one, future_result.
Qed.

(** X15: in a folder where no entry is a capture, the directory pipeline
    does nothing: it returns normally, writes no file and prints nothing,
    whatever the merge and transform arguments are. *)
Theorem process_folder_without_captures
    folder_path output_folder should_merge transform channels algorithm now
    w names w1 :
  listdir folder_path w = (Ok names, w1) →
  submitted_names names = [] →
  completion_order [] = [] →
  process_folder folder_path output_folder should_merge transform
    channels algorithm now w = (Ok (), w1).
Proof.
  intros Hlist Hnone Hsched. unfold process_folder.
  erewrite bind_run by exact Hlist.
  rewrite Hnone, Hsched.
  erewrite (bind_run (run_pool _ _ [])) by reflexivity.
  erewrite (bind_run (collect_results [])) by reflexivity.
  unfold merge_stage. rewrite bool_decide_false by (by intros []).
  rewrite andb_false_r.
  erewrite bind_run by reflexivity.
  unfold transform_stage.
  destruct (transform && truthy_channels channels && truthy_algorithm algorithm);
    [|done].
  by destruct should_merge.
Qed.

(** *** Command line *)

(** What [main] does once the output folder is there, on a path that is
    neither a directory nor a capture file. *)
Lemma main_dispatch_other_path tdms_path output_folder args now w :
  (∀ mtime, fs w !! tdms_path ≠ Some (Dir mtime)) →
  (∀ c mtime, fs w !! tdms_path = Some (File c mtime) →
              endswith (lower tdms_path) ".tdms" = false) →
  (d ← isdir tdms_path;
   if d : bool then
     process_folder tdms_path output_folder (arg_merge args) (arg_transform args)
       (arg_channels args) (arg_algorithm args) now
   else
     f ← isfile tdms_path;
     if (f : bool) && endswith (lower tdms_path) ".tdms" then
       csv_path ← convert_tdms_to_csv tdms_path output_folder;
       if arg_transform args && truthy_channels (arg_channels args)
          && truthy_algorithm (arg_algorithm args) then
         perform_transformation csv_path
           (default [] (arg_channels args)) (default 0 (arg_algorithm args))
       else mret ()
     else mret ()) w
  = (Ok (), w).
Proof.
  intros Hnodir Hnocap.
  erewrite (bind_run (isdir tdms_path)) by reflexivity.
  destruct (fs w !! tdms_path) as [[c mt|mt]|] eqn:Hn.
  - erewrite (bind_run (isfile tdms_path)) by reflexivity.
    rewrite Hn. by rewrite (Hnocap c mt eq_refl).
  - by destruct (Hnodir mt).
  - erewrite (bind_run (isfile tdms_path)) by reflexivity.
    by rewrite Hn.
Qed.

Lemma mkdir_elsewhere d w r w' :
  mkdir d w = (r, w') →
  stdout w' = stdout w ∧ ∀ q, q ≠ d → fs w' !! q = fs w !! q.
Proof.
  unfold mkdir.
  destruct (fs w !! d); [by intros [= <- <-]|].
  destruct (fs w !! parent d) as [[c mt|mt]|]; intros [= <- <-]; try done.
  split; [done|]. intros q Hq. simpl. by rewrite lookup_insert_ne.
Qed.

Lemma mkdir_loop_elsewhere ds w r w' :
  for_in ds (λ d _, mkdir d) () w = (r, w') →
  stdout w' = stdout w ∧ ∀ q, q ∉ ds → fs w' !! q = fs w !! q.
Proof.
  revert w. induction ds as [|d ds IH]; intros w; simpl.
  - by intros [= <- <-].
  - unfold mbind, M_bind.
    destruct (mkdir d w) as [[[]|e] w1] eqn:Hd;
      apply mkdir_elsewhere in Hd as [Hout Hfs].
    + intros Hrest. apply IH in Hrest as [Hout' Hfs'].
      split; [congruence|]. intros q Hq.
      apply not_elem_of_cons in Hq as [Hqd Hq].
      rewrite Hfs' by done. by apply Hfs.
    + intros [= <- <-]. split; [done|]. intros q Hq.
      apply not_elem_of_cons in Hq as [Hqd Hq]. by apply Hfs.
Qed.

Lemma missing_heads_subseteq m hs : missing_heads m hs ⊆ hs.
Proof.
  induction hs as [|h hs IH]; simpl; [done|].
  destruct (m !! h); [apply list_subseteq_nil|].
  intros q Hq. apply elem_of_app in Hq as [Hq|Hq].
  - apply elem_of_cons. right. by apply IH.
  - apply list_elem_of_singleton in Hq as ->. apply elem_of_cons. by left.
Qed.

(** [os.makedirs] prints nothing and touches no path but the one it is
    given and the directories above it. *)
Lemma makedirs_elsewhere p w r w' :
  makedirs p w = (r, w') →
  stdout w' = stdout w ∧ ∀ q, q ∉ p :: heads p → fs w' !! q = fs w !! q.
Proof.
  unfold makedirs, mbind, M_bind.
  destruct (for_in _ _ () w) as [[[]|e] w1] eqn:Hloop;
    apply mkdir_loop_elsewhere in Hloop as [Hout Hfs].
  - intros Hd. apply mkdir_elsewhere in Hd as [Hout' Hfs'].
    split; [congruence|]. intros q Hq.
    apply not_elem_of_cons in Hq as [Hqp Hq].
    rewrite Hfs' by done. apply Hfs.
    intros Hin. by apply Hq, (missing_heads_subseteq (fs w)).
  - intros [= <- <-]. split; [done|]. intros q Hq.
    apply not_elem_of_cons in Hq as [Hqp Hq]. apply Hfs.
    intros Hin. by apply Hq, (missing_heads_subseteq (fs w)).
Qed.

(** X16: given a path that is neither a directory nor a file whose name
    ends in [.tdms], and that is neither the output folder nor a directory
    above it, [main] creates the output folder if it is missing, with the
    missing directories above it, and does nothing else: no conversion, no
    message, and no error but one of that creation. *)
Theorem main_ignores_other_paths args cwd today now w :
  let tdms_path := abspath cwd (arg_path args) in
  let output_folder := main_output_folder args cwd today in
  tdms_path ∉ output_folder :: heads output_folder →
  (∀ mtime, fs w !! tdms_path ≠ Some (Dir mtime)) →
  (∀ c mtime, fs w !! tdms_path = Some (File c mtime) →
              endswith (lower tdms_path) ".tdms" = false) →
  main args cwd today now w
  = if bool_decide (is_Some (fs w !! output_folder)) then (Ok (), w)
    else makedirs output_folder w.
Proof.
  intros tdms_path output_folder Hne Hnodir Hnocap.
  unfold main. fold tdms_path. fold (main_output_folder args cwd today).
  fold output_folder.
  erewrite (bind_run (path_exists output_folder)) by reflexivity.
  case_bool_decide as Hout.
  - erewrite bind_run by reflexivity.
    by apply main_dispatch_other_path.
  - destruct (makedirs output_folder w) as [[[]|e] w1] eqn:Hmk.
    + erewrite bind_run by exact Hmk.
      apply makedirs_elsewhere in Hmk as [_ Hfs].
      apply main_dispatch_other_path; by rewrite Hfs.
    + unfold mbind at 1. unfold M_bind at 1. by rewrite Hmk.
Qed.

(** X17: given one capture file (its name ending in [.tdms] in any case),
    an output folder that is there and can take the converted table, and no
    transform, [main] converts the capture and stops: the converted table,
    the capture's header over its samples with short channels completed and
    columns with a missing sample as floats, is the only file written,
    whatever the merge flag says, and the only line printed is the
    conversion's. *)
Theorem main_file_mode_converts_only args cwd today now w t mtime :
  let tdms_path := abspath cwd (arg_path args) in
  let output_folder := main_output_folder args cwd today in
  let csv_path := csv_path_of tdms_path output_folder in
  is_Some (fs w !! output_folder) →
  can_write (fs w) csv_path = true →
  fs w !! tdms_path = Some (File (Tdms t) mtime) →
  endswith (lower tdms_path) ".tdms" = true →
  arg_transform args = false →
  main args cwd today now w
  = (Ok (),
     {| fs := <[csv_path
                := File (Csv {| header := header t;
                                body := upcast_columns
                                  (resize (length (header t)) NaN <$> body t) |})
                     (clock (ticks w))]> (fs w);
        stdout := stdout w
          ++ ["Converted " +:+ tdms_path +:+ " to " +:+ csv_path];
        ticks := S (ticks w) |}).
Proof.
  intros tdms_path output_folder csv_path Hout Hw Hfile Hext Hoff.
  unfold main. fold tdms_path. fold (main_output_folder args cwd today).
  fold output_folder.
  erewrite (bind_run (path_exists output_folder)) by reflexivity.
  rewrite bool_decide_true by done.
  erewrite bind_run by reflexivity.
  erewrite (bind_run (isdir tdms_path)) by reflexivity.
  rewrite Hfile.
  erewrite (bind_run (isfile tdms_path)) by reflexivity.
  rewrite Hfile, Hext, Hoff. cbn [andb].
  unfold mbind, M_bind. rewrite convert_tdms_to_csv_run, Hfile.
  cbn [decode_tdms]. cbn zeta. fold csv_path.
  rewrite to_csv_writable by done.
  by rewrite csv_of_frame_of.
Qed.


(** X19: for a selector among 1 .. 5, a failure of the numeric routine on a
    channel leaves the dispatch as that exception: no image is written for
    the channel, nothing is printed, and the channels after it are not
    processed. *)
Theorem transform_numeric_failure_aborts
    algorithm r suffix msg csv_file channel channels w df data e :
  supported algorithm = Some (r, suffix, msg) →
  read_csv csv_file w = (Ok df, w) →
  column_values df channel w = (Ok data, w) →
  spectral r data = Raise e →
  perform_transformation csv_file (channel :: channels) algorithm w
  = (Raise e, w).
Proof.
  intros Hsup Hread Hcol Hfail.
  erewrite perform_transformation_cons by exact Hsup.
  unfold mbind at 1 2. unfold M_bind at 1 2. unfold render.
  erewrite bind_run by exact Hread.
  erewrite bind_run by exact Hcol.
  unfold mbind, M_bind. by rewrite Hfail.
Qed.

Lemma standardized_columns_NoDup k : NoDup (standardized_columns k).
Proof.
  unfold standardized_columns. apply NoDup_fmap_2; [|apply NoDup_seq].
  intros i j. apply ch_name_inj.
Qed.

(** X20: the header merge writes, when the merged file can be written,
    never holds the same column name twice, whatever the headers of the
    inputs were. *)
Theorem merged_header_has_distinct_names files output_folder timestamp w :
  survivors (fs w) files ≠ [] →
  can_write (fs w) (merged_filename output_folder timestamp) = true →
  ∃ t mtime,
    fs (merge_csv_files files output_folder timestamp w).2
       !! merged_filename output_folder timestamp
    = Some (File (Csv t) mtime) ∧
    NoDup (header t).
Proof.
  intros Hne Hw.
  destruct (survivors (fs w) files) as [|df dfs] eqn:Hs; [done|].
  destruct (merge_csv_files_some files output_folder timestamp w df dfs Hs Hw)
    as (w' & Hrun & Hfs).
  rewrite Hrun. cbn [snd]. rewrite Hfs, lookup_insert_eq.
  rewrite (merged_table_shape _ _ _ _ _ Hs).
  eexists _, _. split; [reflexivity|]. apply standardized_columns_NoDup.
Qed.
End Pipeline.

(** ** The claims on the sample worlds *)

(** C1, failing input: a directory with one good and one corrupt capture.
    In either completion order the decode error of the corrupt capture
    leaves [process_folder] as an exception: it is neither caught nor
    logged, no list of converted paths is delivered and the requested merge
    does not take place, although the good capture was converted. *)
Theorem process_folder_corrupt_capture_raises :
  let run order :=
    process_folder sample_clock sample_spectral order
      "/data" "/out" true false None None "202401010000" batch_world in
  ((run id).1 = Raise (DecodeError "/data/c.tdms") ∧
   (run reverse).1 = Raise (DecodeError "/data/c.tdms")) ∧
  (stdout (run id).2
   = ["Converted /data/a.tdms to /out/a.csv"; "Converted: /out/a.csv"] ∧
   stdout (run reverse).2 = ["Converted /data/a.tdms to /out/a.csv"]) ∧
  (is_Some (fs (run id).2 !! "/out/a.csv") ∧
   is_Some (fs (run reverse).2 !! "/out/a.csv")) ∧
  (fs (run id).2 !! merged_filename "/out" "202401010000" = None ∧
   fs (run reverse).2 !! merged_filename "/out" "202401010000" = None).
Proof. vm_compute. split_and!; eauto. Qed.

(** C9, failing input: a capture named with an upper-case extension is
    accepted, and its table is written under the unchanged name, not under
    a name ending in the tabular extension. *)
Theorem convert_upper_case_extension_keeps_name :
  endswith (lower "/data/RUN1.TDMS") ".tdms" = true ∧
  ∃ w',
    convert_tdms_to_csv sample_clock "/data/RUN1.TDMS" "/out" upper_world
    = (Ok "/out/RUN1.TDMS", w') ∧
    fs w' !! "/out/RUN1.TDMS" = Some (File (Csv narrow) 100) ∧
    fs w' !! "/out/RUN1.csv" = None.
Proof.
  split; [reflexivity|].
  eexists. split_and!; [vm_compute; reflexivity|vm_compute; reflexivity..].
Qed.

(** C2, as stated, fails: a table of two columns followed by one of three
    columns is merged into three columns. *)
Lemma merge_width_not_first_width :
  ¬ (∀ files output_folder timestamp w df dfs w' path t mtime,
       survivors (fs w) files = df :: dfs →
       merge_csv_files sample_clock files output_folder timestamp w
       = (Ok (Some path), w') →
       fs w' !! path = Some (File (Csv t) mtime) →
       length (header t) = width df).
Proof.
  intros Hclaim.
  set (files := ["/out/narrow.csv"; "/out/wide.csv"]).
  set (run := merge_csv_files sample_clock files "/out" "202401010000" merge_world).
  assert (length (standardized_columns 3) = width (frame_of narrow)) as Habs.
  { apply (Hclaim files "/out" "202401010000" merge_world
             (frame_of narrow) [frame_of wide] run.2
             "/out/merge_csv_202401010000.csv"
             {| header := standardized_columns 3;
                body := [[Val 0; Val 5; NaN]; [Val 1; Val 7; NaN];
                         [Val 9; Val 8; Flt 7 0]] |} 100);
      vm_compute; reflexivity. }
  vm_compute in Habs. discriminate.
Qed.

Lemma merge_width_is_widest_witness :
  let files := ["/out/labelled.csv"; "/out/ragged.csv"] in
  let df := {| columns := ["p"; "q"];
               rows := [(Key [Val 10], [Val 1; Val 2]);
                        (Key [Val 20], [Val 3; Val 4])] |} in
  let dfs := [{| columns := ["a"; "b"; "c"];
                 rows := [(Pos 0, [Val 1; Flt 2 0; Flt 3 0]);
                          (Pos 1, [Val 4; NaN; NaN]);
                          (Pos 2, [Val 5; Flt 4503599627370496 1; Flt 6 0])] |}] in
  survivors (fs ragged_world) files = df :: dfs ∧
  can_write (fs ragged_world) (merged_filename "/out" "202401010000") = true ∧
  ∃ w' t mtime,
    merge_csv_files sample_clock files "/out" "202401010000" ragged_world
    = (Ok (Some (merged_filename "/out" "202401010000")), w') ∧
    fs w' !! merged_filename "/out" "202401010000" = Some (File (Csv t) mtime) ∧
    header t = standardized_columns (max_width (df :: dfs)) ∧
    length (header t) = max_width (df :: dfs) ∧
    (Forall (λ d, width d ≤ width df)%nat dfs → length (header t) = width df).
Proof.
  intros files df dfs.
  split; [vm_compute; reflexivity|]. split; [vm_compute; reflexivity|].
  apply (merge_width_is_widest sample_clock files "/out" "202401010000"
           ragged_world df dfs);
    vm_compute; reflexivity.
Defined.

Lemma merge_single_file_columns_witness :
  let df := {| columns := ["a"; "b"; "c"];
               rows := [(Pos 0, [Val 1; Flt 2 0; Flt 3 0]);
                        (Pos 1, [Val 4; NaN; NaN]);
                        (Pos 2, [Val 5; Flt 4503599627370496 1; Flt 6 0])] |} in
  read_csv "/out/ragged.csv" ragged_world = (Ok df, ragged_world) ∧
  df_empty df = false ∧
  can_write (fs ragged_world) (merged_filename "/out" "202401010000") = true ∧
  ∃ w' t mtime,
    merge_csv_files sample_clock ["/out/ragged.csv"] "/out" "202401010000"
      ragged_world
    = (Ok (Some (merged_filename "/out" "202401010000")), w') ∧
    fs w' !! merged_filename "/out" "202401010000" = Some (File (Csv t) mtime) ∧
    header t = (λ i : nat, "CH" +:+ pretty i) <$> seq 0 (length (columns df)) ∧
    length (header t) = length (columns df) ∧
    body t = snd <$> rows df.
Proof.
  intros df.
  split; [vm_compute; reflexivity|]. split; [reflexivity|].
  split; [vm_compute; reflexivity|].
  apply (merge_single_file_columns sample_clock "/out/ragged.csv" "/out"
           "202401010000" ragged_world df);
    vm_compute; reflexivity.
Defined.

Lemma merge_rows_in_order_witness :
  let files := ["/out/wide.csv"; "/out/empty.csv"; "/out/ragged.csv";
                "/out/labelled.csv"] in
  let kept := survivors (fs ragged_world) files in
  length kept = 3%nat ∧
  can_write (fs ragged_world) (merged_filename "/out" "202401010000") = true ∧
  ∃ w1 w' merged_df mtime,
    merged_dataframe files ragged_world = (Ok (Some merged_df), w1) ∧
    merge_csv_files sample_clock files "/out" "202401010000" ragged_world
    = (Ok (Some (merged_filename "/out" "202401010000")), w') ∧
    fs w' !! merged_filename "/out" "202401010000"
    = Some (File (csv_of merged_df) mtime) ∧
    snd <$> rows merged_df = upcast_columns (kept ≫= padded (max_width kept)) ∧
    df_index merged_df = Pos <$> seq 0 (df_len merged_df) ∧
    df_len merged_df = sum_list (df_len <$> kept).
Proof.
  split; [vm_compute; reflexivity|]. split; [vm_compute; reflexivity|].
  apply (merge_rows_in_order sample_clock
           ["/out/wide.csv"; "/out/empty.csv"; "/out/ragged.csv";
            "/out/labelled.csv"]
           "/out" "202401010000" ragged_world).
  - vm_compute. discriminate.
  - vm_compute; reflexivity.
Defined.

Lemma merge_empty_file_transparent_witness :
  let df := {| columns := ["a"; "b"; "c"];
               rows := [(Pos 0, [Val 1; Flt 2 0; Flt 3 0]);
                        (Pos 1, [Val 4; NaN; NaN]);
                        (Pos 2, [Val 5; Flt 4503599627370496 1; Flt 6 0])] |} in
  reads_empty (fs ragged_world) "/out/empty.csv" = true ∧
  read_csv "/out/ragged.csv" ragged_world = (Ok df, ragged_world) ∧
  df_empty df = false ∧
  can_write (fs ragged_world) (merged_filename "/out" "202401010000") = true ∧
  ∃ w1 w2 notice rest t mtime,
    merge_csv_files sample_clock ["/out/empty.csv"; "/out/ragged.csv"]
      "/out" "202401010000" ragged_world
    = (Ok (Some (merged_filename "/out" "202401010000")), w1) ∧
    merge_csv_files sample_clock ["/out/ragged.csv"]
      "/out" "202401010000" ragged_world
    = (Ok (Some (merged_filename "/out" "202401010000")), w2) ∧
    fs w1 = fs w2 ∧ ticks w1 = ticks w2 ∧
    fs w1 !! merged_filename "/out" "202401010000"
    = Some (File (Csv t) mtime) ∧
    header t = standardized_columns (width df) ∧
    body t = snd <$> rows df ∧
    stdout w2 = stdout ragged_world ++ rest ∧
    stdout w1 = stdout ragged_world ++ notice :: rest ∧
    (notice = "Skipping empty file: " +:+ "/out/empty.csv"
     ∨ notice = "No data in " +:+ "/out/empty.csv" +:+ ", skipping.").
Proof.
  intros df.
  split; [vm_compute; reflexivity|]. split; [vm_compute; reflexivity|].
  split; [reflexivity|]. split; [vm_compute; reflexivity|].
  apply (merge_empty_file_transparent sample_clock "/out/empty.csv"
           "/out/ragged.csv" "/out" "202401010000" ragged_world df);
    vm_compute; reflexivity.
Defined.

Lemma merge_without_survivor_witness :
  let files := ["/out/empty.csv"; "/out/overlong.csv"; "/out/sub";
                "/out/missing.csv"; "/out"] in
  survivors (fs ragged_world) files = [] ∧
  ∃ w',
    merge_csv_files sample_clock files "/out" "202401010000" ragged_world
    = (Ok None, w') ∧
    fs w' = fs ragged_world ∧ ticks w' = ticks ragged_world ∧
    last (stdout w') = Some "No valid CSV files to merge.".
Proof.
  split; [vm_compute; reflexivity|].
  apply (merge_without_survivor sample_clock
           ["/out/empty.csv"; "/out/overlong.csv"; "/out/sub";
            "/out/missing.csv"; "/out"]
           "/out" "202401010000" ragged_world).
  vm_compute; reflexivity.
Defined.

Lemma unsupported_algorithm_is_noop_witness :
  ¬ (1 ≤ 7 ≤ 5) ∧
  perform_transformation sample_clock sample_spectral
    "/out/narrow.csv" ["CH0"; "CH1"] 7 merge_world
  = (Ok (),
     with_stdout merge_world
       ["Algorithm 7 not implemented for CH0.";
        "Algorithm 7 not implemented for CH1."]).
Proof.
  split; [lia|].
  apply (unsupported_algorithm_is_noop sample_clock sample_spectral
           "/out/narrow.csv" ["CH0"; "CH1"] 7 merge_world).
  lia.
Defined.

Lemma merge_input_sorted_by_mtime_witness :
  ∃ w3 csv_files_sorted,
    csv_files_sorted ≡ₚ ["/out/b.csv"; "/out/a.csv"] ∧
    StronglySorted (λ x y, mtime_of w3 x ≤ mtime_of w3 y) csv_files_sorted ∧
    process_folder sample_clock sample_spectral reverse
      "/data" "/out" true false None None "202401010000" good_world
    = (merged_csv_path ←
         merge_csv_files sample_clock csv_files_sorted "/out" "202401010000";
       transform_stage sample_clock sample_spectral true false None None
         merged_csv_path ["/out/b.csv"; "/out/a.csv"]) w3.
Proof.
  eexists.
  eapply (merge_input_sorted_by_mtime sample_clock sample_spectral reverse
            "/data" "/out" false None None "202401010000" good_world).
  - vm_compute; reflexivity.
  - vm_compute; reflexivity.
  - vm_compute; reflexivity.
  - discriminate.
Defined.

Lemma transform_skipped_without_arguments_witness :
  transform_stage sample_clock sample_spectral true true (Some []) (Some 2)
    (Some "/out/narrow.csv") [] merge_world
  = (Ok (), merge_world).
Proof.
  apply (transform_skipped_without_arguments sample_clock sample_spectral id
           (Some []) (Some 2)).
  left. reflexivity.
Defined.

(** ** The further properties on the sample worlds *)

Lemma convert_lower_case_capture_name_witness :
  basename "/data/short.tdms" = "short" +:+ ".tdms" ∧
  can_write (fs main_world)
    (path_join "/out" (sanitize_filename "short" +:+ ".csv")) = true ∧
  ∃ w',
    convert_tdms_to_csv sample_clock "/data/short.tdms" "/out" main_world
    = (Ok (path_join "/out" (sanitize_filename "short" +:+ ".csv")), w') ∧
    fs w' !! path_join "/out" (sanitize_filename "short" +:+ ".csv")
    = Some (File (csv_of (frame_of ragged)) (sample_clock (ticks main_world))).
Proof.
  split; [reflexivity|]. split; [vm_compute; reflexivity|].
  apply (convert_lower_case_capture_name sample_clock
           "/data/short.tdms" "/out" "short" main_world ragged 2).
  - reflexivity.
  - intros Hin. repeat (apply elem_of_cons in Hin as [Hin|Hin]; [discriminate|]).
    by apply elem_of_nil in Hin.
  - vm_compute; reflexivity.
  - vm_compute; reflexivity.
Defined.

Lemma convert_writes_decoded_table_witness :
  can_write (fs main_world) (csv_path_of "/data/short.tdms" "/out") = true ∧
  convert_tdms_to_csv sample_clock "/data/short.tdms" "/out" main_world
  = (Ok "/out/short.csv",
     {| fs := <["/out/short.csv"
                := File (Csv {| header := ["a"; "b"; "c"];
                                body := [[Flt 1 0; Flt 2 0; Flt 3 0];
                                         [Flt 4 0; NaN; NaN];
                                         [NaN; NaN; NaN];
                                         [Flt 5 0; Flt 4503599627370496 1;
                                          Flt 6 0]] |})
                     100]> (fs main_world);
        stdout := ["Converted /data/short.tdms to /out/short.csv"];
        ticks := 1 |}).
Proof.
  split; [vm_compute; reflexivity|].
  apply (convert_writes_decoded_table sample_clock
           "/data/short.tdms" "/out" main_world ragged 2);
    vm_compute; reflexivity.
Defined.


Lemma merge_touches_only_its_output_witness :
  fs (merge_csv_files sample_clock ["/out/narrow.csv"; "/out/wide.csv"]
        "/out" "202401010000" merge_world).2 !! "/out/narrow.csv"
  = fs merge_world !! "/out/narrow.csv".
Proof.
  apply (merge_touches_only_its_output sample_clock
           ["/out/narrow.csv"; "/out/wide.csv"] "/out" "202401010000"
           merge_world "/out/narrow.csv").
  vm_compute. discriminate.
Defined.

Lemma merge_depends_on_survivors_witness :
  let files1 := ["/out/wide.csv"; "/out/missing.csv"; "/out/ragged.csv"] in
  let files2 := ["/out/overlong.csv"; "/out/wide.csv"; "/out/empty.csv";
                 "/out/ragged.csv"] in
  length (survivors (fs ragged_world) files1) = 2%nat ∧
  (merge_csv_files sample_clock files1 "/out" "202401010000" ragged_world).1
  = (merge_csv_files sample_clock files2 "/out" "202401010000" ragged_world).1 ∧
  fs (merge_csv_files sample_clock files1 "/out" "202401010000" ragged_world).2
  = fs (merge_csv_files sample_clock files2 "/out" "202401010000" ragged_world).2.
Proof.
  split; [vm_compute; reflexivity|].
  apply (merge_depends_on_survivors sample_clock
           ["/out/wide.csv"; "/out/missing.csv"; "/out/ragged.csv"]
           ["/out/overlong.csv"; "/out/wide.csv"; "/out/empty.csv";
            "/out/ragged.csv"]
           "/out" "202401010000" ragged_world).
  vm_compute; reflexivity.
Defined.

Lemma merge_same_width_is_lossless_witness :
  fs (merge_csv_files sample_clock ["/out/wide.csv"; "/out/ragged.csv"]
        "/out" "202401010000" ragged_world).2
     !! merged_filename "/out" "202401010000"
  = Some (File (Csv {| header := ["CH0"; "CH1"; "CH2"];
                       body := [[Val 9; Flt 8 0; Flt 7 0];
                                [Val 1; Flt 2 0; Flt 3 0];
                                [Val 4; NaN; NaN];
                                [Val 5; Flt 4503599627370496 1; Flt 6 0]] |})
               100).
Proof.
  apply (merge_same_width_is_lossless sample_clock
           ["/out/wide.csv"; "/out/ragged.csv"] "/out" "202401010000"
           ragged_world
           {| columns := ["x"; "y"; "z"];
              rows := [(Pos 0, [Val 9; Val 8; Val 7])] |}
           [{| columns := ["a"; "b"; "c"];
               rows := [(Pos 0, [Val 1; Flt 2 0; Flt 3 0]);
                        (Pos 1, [Val 4; NaN; NaN]);
                        (Pos 2, [Val 5; Flt 4503599627370496 1; Flt 6 0])] |}]).
  - vm_compute; reflexivity.
  - by repeat constructor.
  - vm_compute; reflexivity.
Defined.


Lemma transform_writes_image_witness :
  can_write (fs merge_world) "/out/narrow_volt_stft.png" = true ∧
  perform_transformation sample_clock sample_spectral
    ("/out/narrow" +:+ ".csv") ["volt"] 2 merge_world
  = (Ok (),
     {| fs := <["/out/narrow" +:+ "_" +:+ "volt" +:+ "_stft.png"
                := File (Png STFT [[2]]) (sample_clock (ticks merge_world))]>
                (fs merge_world);
        stdout := stdout merge_world
          ++ ["STFT transformation" +:+ " completed for " +:+ "volt"
              +:+ ". Image saved."];
        ticks := S (ticks merge_world) |}).
Proof.
  split; [vm_compute; reflexivity|].
  apply (transform_writes_image sample_clock sample_spectral
           2 STFT "_stft.png" "STFT transformation" "/out/narrow" "volt"
           merge_world (frame_of narrow) [Val 5; Val 7] [[2]]).
  - reflexivity.
  - intros Hin. repeat (apply elem_of_cons in Hin as [Hin|Hin]; [discriminate|]).
    by apply elem_of_nil in Hin.
  - vm_compute; reflexivity.
  - vm_compute; reflexivity.
  - reflexivity.
  - vm_compute; reflexivity.
Defined.

Lemma transform_missing_channel_aborts_witness :
  perform_transformation sample_clock sample_spectral
    "/out/narrow.csv" ["CH9"; "volt"] 3 merge_world
  = (Raise (KeyError "CH9"), merge_world).
Proof.
  apply (transform_missing_channel_aborts sample_clock sample_spectral
           3 (CWT, "_cwt.png", "CWT transformation")
           "/out/narrow.csv" "CH9" ["volt"] merge_world (frame_of narrow)).
  - reflexivity.
  - vm_compute; reflexivity.
  - intros Hin. repeat (apply elem_of_cons in Hin as [Hin|Hin]; [discriminate|]).
    by apply elem_of_nil in Hin.
Defined.

Lemma sorted_by_mtime_is_stable_witness :
  let paths := ["/out/c.csv"; "/out/a.csv"; "/out/b.csv"; "/out/d.csv"] in
  sorted_by_mtime paths tie_world
  = (Ok ["/out/a.csv"; "/out/d.csv"; "/out/c.csv"; "/out/b.csv"], tie_world) ∧
  ∃ csv_files_sorted,
    sorted_by_mtime paths tie_world = (Ok csv_files_sorted, tie_world) ∧
    StronglySorted (λ x y, mtime_of tie_world x ≤ mtime_of tie_world y)
      csv_files_sorted ∧
    ∀ t, filter (λ p, mtime_of tie_world p = t) csv_files_sorted
         = filter (λ p, mtime_of tie_world p = t) paths.
Proof.
  split; [vm_compute; reflexivity|].
  apply (sorted_by_mtime_is_stable
           ["/out/c.csv"; "/out/a.csv"; "/out/b.csv"; "/out/d.csv"] tie_world).
  repeat constructor; vm_compute; eauto.
Defined.

Lemma process_folder_without_captures_witness :
  process_folder sample_clock sample_spectral id
    "/out" "/out" true true (Some ["CH0"]) (Some 2) "202401010000" merge_world
  = (Ok (), merge_world).
Proof.
  eapply (process_folder_without_captures sample_clock sample_spectral id
            "/out" "/out" true true (Some ["CH0"]) (Some 2) "202401010000"
            merge_world).
  - vm_compute; reflexivity.
  - vm_compute; reflexivity.
  - reflexivity.
Defined.

Lemma main_ignores_other_paths_witness :
  let args := {| arg_path := "sub/../notes.txt";
                 arg_output := Some "results/2024/";
                 arg_merge := true; arg_transform := false;
                 arg_channels := None; arg_algorithm := None |} in
  abspath "/data" (arg_path args) = "/data/notes.txt" ∧
  main_output_folder args "/data" "202401010000" = "/data/results/2024" ∧
  (makedirs sample_clock "/data/results/2024" main_world).1 = Ok () ∧
  main sample_clock sample_spectral id args "/data" "202401010000"
    "202401010000" main_world
  = makedirs sample_clock "/data/results/2024" main_world.
Proof.
  intros args.
  split; [vm_compute; reflexivity|]. split; [vm_compute; reflexivity|].
  split; [vm_compute; reflexivity|].
  apply (main_ignores_other_paths sample_clock sample_spectral id args
           "/data" "202401010000" "202401010000" main_world).
  - intros Hin. vm_compute in Hin.
    repeat (apply elem_of_cons in Hin as [Hin|Hin]; [discriminate|]).
    by apply elem_of_nil in Hin.
  - intros mtime. vm_compute. discriminate.
  - intros c mtime _. vm_compute; reflexivity.
Defined.

Lemma main_file_mode_converts_only_witness :
  let args := {| arg_path := "short.tdms"; arg_output := Some "/out/";
                 arg_merge := true; arg_transform := false;
                 arg_channels := None; arg_algorithm := None |} in
  main sample_clock sample_spectral id args "/data" "202401010000"
    "202401010000" main_world
  = (Ok (),
     {| fs := <["/out/short.csv"
                := File (Csv {| header := ["a"; "b"; "c"];
                                body := [[Flt 1 0; Flt 2 0; Flt 3 0];
                                         [Flt 4 0; NaN; NaN];
                                         [NaN; NaN; NaN];
                                         [Flt 5 0; Flt 4503599627370496 1;
                                          Flt 6 0]] |})
                     100]> (fs main_world);
        stdout := ["Converted /data/short.tdms to /out/short.csv"];
        ticks := 1 |}).
Proof.
  apply (main_file_mode_converts_only sample_clock sample_spectral id
           {| arg_path := "short.tdms"; arg_output := Some "/out/";
              arg_merge := true; arg_transform := false;
              arg_channels := None; arg_algorithm := None |}
           "/data" "202401010000" "202401010000" main_world ragged 2).
  - vm_compute. eauto.
  - vm_compute; reflexivity.
  - vm_compute; reflexivity.
  - reflexivity.
  - reflexivity.
Defined.


Lemma transform_numeric_failure_aborts_witness :
  perform_transformation sample_clock strict_spectral
    "/out/narrow.csv" ["volt"; "time"] 5 merge_world
  = (Raise (NumericError STransform), merge_world).
Proof.
  apply (transform_numeric_failure_aborts sample_clock strict_spectral
           5 STransform "_s_transform.png" "S-Transform (simplified)"
           "/out/narrow.csv" "volt" ["time"] merge_world
           (frame_of narrow) [Val 5; Val 7] (NumericError STransform)).
  - reflexivity.
  - vm_compute; reflexivity.
  - vm_compute; reflexivity.
  - reflexivity.
Defined.

Lemma merged_header_has_distinct_names_witness :
  ∃ t mtime,
    fs (merge_csv_files sample_clock ["/out/narrow.csv"; "/out/wide.csv"]
          "/out" "202401010000" merge_world).2
       !! merged_filename "/out" "202401010000"
    = Some (File (Csv t) mtime) ∧
    NoDup (header t).
Proof.
  apply (merged_header_has_distinct_names sample_clock
           ["/out/narrow.csv"; "/out/wide.csv"] "/out" "202401010000"
           merge_world).
  - vm_compute. discriminate.
  - vm_compute; reflexivity.
Defined.


Lemma convert_empty_capture_writes_empty_table_witness :
  can_write (fs main_world) (csv_path_of "/data/zero.tdms" "/out") = true ∧
  ∃ w',
    convert_tdms_to_csv sample_clock "/data/zero.tdms" "/out" main_world
    = (Ok (csv_path_of "/data/zero.tdms" "/out"), w') ∧
    fs w' = <[csv_path_of "/data/zero.tdms" "/out"
              := File (Csv {| header := []; body := [] |})
                      (sample_clock (ticks main_world))]> (fs main_world) ∧
    stdout w' = stdout main_world
                ++ ["Converted " +:+ "/data/zero.tdms" +:+ " to "
                    +:+ csv_path_of "/data/zero.tdms" "/out"] ∧
    parse_csv (csv_path_of "/data/zero.tdms" "/out")
      (fs w' !! csv_path_of "/data/zero.tdms" "/out")
    = Raise EmptyDataError.
Proof.
  split; [vm_compute; reflexivity|].
  apply (convert_empty_capture_writes_empty_table sample_clock
           "/data/zero.tdms" "/out" main_world 3);
    vm_compute; reflexivity.
Defined.

Lemma convert_unwritable_output_raises_witness :
  can_write (fs main_world) (csv_path_of "/data/a.tdms" "/data/notes.txt")
  = false ∧
  ∃ e,
    convert_tdms_to_csv sample_clock "/data/a.tdms" "/data/notes.txt" main_world
    = (Raise e, main_world) ∧
    (e = OSError ("Cannot save file into a non-existent directory: '"
                  +:+ parent (csv_path_of "/data/a.tdms" "/data/notes.txt")
                  +:+ "'")
     ∨ e = IsADirectoryError (csv_path_of "/data/a.tdms" "/data/notes.txt")).
Proof.
  split; [vm_compute; reflexivity|].
  apply (convert_unwritable_output_raises sample_clock
           "/data/a.tdms" "/data/notes.txt" main_world narrow 1);
    vm_compute; reflexivity.
Defined.

